(** * A shallow embedding of the Go Sphinx client (package sphinx)

    The development follows [sphinx.go] and [sphinxql.go]: the big-endian
    wire encoders, the cursor based [byteParser], the query configuration
    setters, [AddQuery], [RunQueries], [Query], the request built by
    [BuildExcerpts], and the literal marshalling of the SphinxQL bridge.

    Conventions.
    - Go's [int] is taken to be 64 bits wide; every integer is a [Z] and the
      conversions [uint16(i)], [uint32(i)] are written as [mod].
    - A Go [string] and a [[]byte] are both a [list byte]; every slice the
      decoder sees has its capacity equal to its length ([make([]byte, size)]
      and tails of it), so a slice expression panics exactly when it leaves
      the list.
    - A [float32] is its IEEE-754 bit pattern, which is what travels on the
      wire.
    - A Go map is an association list whose order stands for the iteration
      order of the run at hand; a nil map is [None] where the source writes
      into the map.
    - A runtime panic is an outcome of its own, never confused with a
      returned [error]. *)

From Stdlib Require Import ZArith List Lia Bool String Strings.Byte Ascii.
From Stdlib Require Import Decimal DecimalString DecimalZ DecimalPos.
Import ListNotations.
Open Scope Z_scope.

(** ** Bytes, strings, errors *)

Definition gostring := list byte.

Definition str (s : string) : gostring := list_byte_of_string s.

Definition u8 (b : byte) : Z := Z.of_N (Byte.to_N b).

Definition byte_of (z : Z) : byte :=
  match Byte.of_N (Z.to_N (z mod 256)) with
  | Some b => b
  | None => x00
  end.

Definition len {A : Type} (l : list A) : Z := Z.of_nat (List.length l).

Definition gostring_eqb (a b : gostring) : bool :=
  if list_eq_dec Byte.byte_eq_dec a b then true else false.

(** [error] values are built by [errors.New] and [fmt.Errorf]; only the
    message matters. *)
Inductive error : Type := errors_New (msg : gostring).

Definition error_msg (e : error) : gostring :=
  match e with errors_New m => m end.

(** The runtime faults the embedded code can raise. *)
Inductive panic : Type :=
| slice_bounds_out_of_range
| assignment_to_entry_in_nil_map
| interface_conversion.

(** [strconv.FormatInt(z, 10)] and the [%d] verb. *)
Definition FormatInt (z : Z) : gostring :=
  str (NilZero.string_of_int (Z.to_int z)).


(** ** Constants *)

Definition VER_MAJOR_PROTO : Z := 0x1.
Definition VER_COMMAND_SEARCH : Z := 0x119.
Definition VER_COMMAND_EXCERPT : Z := 0x104.

Definition SPH_MATCH_EXTENDED : Z := 4.
Definition SPH_RANK_PROXIMITY_BM25 : Z := 0.
Definition SPH_RANK_EXPR : Z := 8.
Definition SPH_SORT_RELEVANCE : Z := 0.
Definition SPH_GROUPBY_DAY : Z := 0.

Definition SEARCHD_OK : Z := 0.
Definition SEARCHD_ERROR : Z := 1.
Definition SEARCHD_RETRY : Z := 2.
Definition SEARCHD_WARNING : Z := 3.

Definition SPH_ATTR_NONE : Z := 0.
Definition SPH_ATTR_INTEGER : Z := 1.
Definition SPH_ATTR_TIMESTAMP : Z := 2.
Definition SPH_ATTR_ORDINAL : Z := 3.
Definition SPH_ATTR_BOOL : Z := 4.
Definition SPH_ATTR_FLOAT : Z := 5.
Definition SPH_ATTR_BIGINT : Z := 6.
Definition SPH_ATTR_STRING : Z := 7.
Definition SPH_ATTR_MULTI : Z := 0x40000001.
Definition SPH_ATTR_MULTI64 : Z := 0x40000002.

Definition SEARCHD_COMMAND_SEARCH : Z := 0.
Definition SEARCHD_COMMAND_EXCERPT : Z := 1.

Definition SPH_FILTER_VALUES : Z := 0.
Definition SPH_FILTER_RANGE : Z := 1.
Definition SPH_FILTER_FLOATRANGE : Z := 2.

(** ** encoding/binary, big endian *)

Definition PutUint16 (v : Z) : list byte :=
  [byte_of (Z.shiftr v 8); byte_of v].

Definition PutUint32 (v : Z) : list byte :=
  [byte_of (Z.shiftr v 24); byte_of (Z.shiftr v 16);
   byte_of (Z.shiftr v 8); byte_of v].

Definition PutUint64 (v : Z) : list byte :=
  [byte_of (Z.shiftr v 56); byte_of (Z.shiftr v 48);
   byte_of (Z.shiftr v 40); byte_of (Z.shiftr v 32);
   byte_of (Z.shiftr v 24); byte_of (Z.shiftr v 16);
   byte_of (Z.shiftr v 8); byte_of v].

Definition at_ (b : list byte) (i : nat) : Z := u8 (nth i b x00).

Definition Uint16 (b : list byte) : Z :=
  Z.lor (at_ b 1) (Z.shiftl (at_ b 0) 8).

Definition Uint32 (b : list byte) : Z :=
  Z.lor (Z.lor (Z.lor (at_ b 3) (Z.shiftl (at_ b 2) 8))
               (Z.shiftl (at_ b 1) 16))
        (Z.shiftl (at_ b 0) 24).

Definition Uint64 (b : list byte) : Z :=
  Z.lor (Z.lor (Z.lor (Z.lor (Z.lor (Z.lor (Z.lor
    (at_ b 7) (Z.shiftl (at_ b 6) 8)) (Z.shiftl (at_ b 5) 16))
    (Z.shiftl (at_ b 4) 24)) (Z.shiftl (at_ b 3) 32))
    (Z.shiftl (at_ b 2) 40)) (Z.shiftl (at_ b 1) 48))
    (Z.shiftl (at_ b 0) 56).

(** ** The request writers *)

Definition writeFloat32ToBytes (bs : list byte) (f : Z) : list byte :=
  bs ++ PutUint32 f.

Definition writeInt16ToBytes (bs : list byte) (i : Z) : list byte :=
  bs ++ PutUint16 (i mod 2 ^ 16).

Definition writeInt32ToBytes (bs : list byte) (i : Z) : list byte :=
  bs ++ PutUint32 (i mod 2 ^ 32).

Definition writeInt64ToBytes (bs : list byte) (ui : Z) : list byte :=
  bs ++ PutUint64 ui.

Definition writeLenStrToBytes (bs : list byte) (s : gostring) : list byte :=
  (bs ++ PutUint32 (len s mod 2 ^ 32)) ++ s.

(** ** Slice expressions *)

(** [s[lo:hi]]: a panic ([None]) unless [0 <= lo <= hi <= cap(s)]. *)
Definition slice {A : Type} (s : list A) (lo hi : Z) : option (list A) :=
  if (0 <=? lo) && (lo <=? hi) && (hi <=? len s)
  then Some (firstn (Z.to_nat (hi - lo)) (skipn (Z.to_nat lo) s))
  else None.

(** [b[lo:hi]] on a buffer known to be long enough. *)
Definition sub (b : list byte) (lo hi : nat) : list byte :=
  firstn (hi - lo) (skipn lo b).

(** ** byteParser *)

Record byteParser : Type := mkBP { stream : list byte; p : Z }.

(** What a piece of decoding code does: it goes on with a value and the
    moved cursor, it makes [RunQueries] return an error, or it panics. *)
Inductive res (A : Type) : Type :=
| Val (a : A) (bp : byteParser)
| Ret (e : error)
| Panic (why : panic).
Arguments Val {A} a bp.
Arguments Ret {A} e.
Arguments Panic {A} why.

Definition Parser (A : Type) : Type := byteParser -> res A.

Definition ret {A : Type} (a : A) : Parser A := fun bp => Val a bp.

Definition bind {A B : Type} (m : Parser A) (f : A -> Parser B) : Parser B :=
  fun bp =>
    match m bp with
    | Val a bp' => f a bp'
    | Ret e => Ret e
    | Panic w => Panic w
    end.

Definition returnErr {A : Type} (e : error) : Parser A := fun _ => Ret e.

Notation "x <- m ;; k" := (bind m (fun x => k))
  (at level 61, m at next level, right associativity).

(** The shared shape of the fixed-width readers: slice, convert, advance. *)
Definition readN {A : Type} (n : Z) (conv : list byte -> A) : Parser A :=
  fun bp =>
    match slice (stream bp) (p bp) (p bp + n) with
    | Some b => Val (conv b) (mkBP (stream bp) (p bp + n))
    | None => Panic slice_bounds_out_of_range
    end.

Definition bp_Int32 : Parser Z := readN 4 Uint32.
Definition bp_Uint32 : Parser Z := readN 4 Uint32.
Definition bp_Uint64 : Parser Z := readN 8 Uint64.

(** [binary.Read] of a [float32] from a four byte buffer cannot fail, so the
    error component is always nil. *)
Definition bp_Float32 : Parser (Z * option error) :=
  readN 4 (fun b => (Uint32 b, None)).

Definition bp_String : Parser gostring :=
  slen <- bp_Int32 ;;
  if 0 <? slen then readN slen (fun b => b) else ret [].

Fixpoint repeatM {A : Type} (n : nat) (m : Parser A) : Parser (list A) :=
  match n with
  | O => ret []
  | S k => x <- m ;; xs <- repeatM k m ;; ret (x :: xs)
  end.

Fixpoint mapM {A B : Type} (f : A -> Parser B) (l : list A) : Parser (list B) :=
  match l with
  | [] => ret []
  | a :: l' => x <- f a ;; xs <- mapM f l' ;; ret (x :: xs)
  end.

(** ** Results *)

Inductive AttrValue : Type :=
| AVuint32 (v : Z)
| AVuint64 (v : Z)
| AVfloat32 (bits : Z)
| AVstring (s : gostring)
| AVmulti (vals : list Z)
| AVmulti64 (vals : list Z).

Record Match : Type := mkMatch {
  DocId : Z;
  Weight : Z;
  AttrValues : list AttrValue
}.

Record WordInfo : Type := mkWordInfo {
  Word : gostring;
  Docs : Z;
  Hits : Z
}.

(** [Time] is [float32(msecs) / 1000.0]; the record keeps [msecs], the
    integer the quotient is computed from. *)
Record Result : Type := mkResult {
  Fields : list gostring;
  AttrNames : list gostring;
  AttrTypes : list Z;
  Matches : list Match;
  Total : Z;
  TotalFound : Z;
  TimeMsecs : Z;
  Words : list WordInfo;
  Warning : gostring;
  Error : option error;
  Status : Z
}.

(** ** Decoding one result of a batch (the body of the loop of RunQueries) *)

Definition decodeAttr (attrType : Z) : Parser AttrValue :=
  if attrType =? SPH_ATTR_BIGINT then
    v <- bp_Uint64 ;; ret (AVuint64 v)
  else if attrType =? SPH_ATTR_FLOAT then
    fe <- bp_Float32 ;;
    match snd fe with
    | Some e => returnErr (errors_New (str "binary.Read error: " ++ error_msg e))
    | None => ret (AVfloat32 (fst fe))
    end
  else if attrType =? SPH_ATTR_STRING then
    s <- bp_String ;; ret (AVstring s)
  else if attrType =? SPH_ATTR_MULTI then
    nvals <- bp_Int32 ;;
    vals <- repeatM (Z.to_nat nvals) bp_Uint32 ;;
    ret (AVmulti vals)
  else if attrType =? SPH_ATTR_MULTI64 then
    nvals <- bp_Int32 ;;
    let nvals := Z.quot nvals 2 in
    vals <- repeatM (Z.to_nat nvals)
              (v <- bp_Uint32 ;; _ <- bp_Uint32 ;; ret v) ;;
    ret (AVmulti64 vals)
  else
    v <- bp_Uint32 ;; ret (AVuint32 v).

Definition decodeMatch (id64 : Z) (attrTypes : list Z) : Parser Match :=
  docId <- (if id64 =? 1 then bp_Uint64 else bp_Uint32) ;;
  weight <- bp_Int32 ;;
  vals <- mapM decodeAttr attrTypes ;;
  ret (mkMatch docId weight vals).

Definition decodeWord : Parser WordInfo :=
  w <- bp_String ;;
  docs <- bp_Int32 ;;
  hits <- bp_Int32 ;;
  ret (mkWordInfo w docs hits).

(** The part of the loop body after the status block: schema, matches,
    totals, time and word statistics. *)
Definition decodeRest (status : Z) (warning : gostring) : Parser Result :=
  nfields <- bp_Int32 ;;
  fields <- repeatM (Z.to_nat nfields) bp_String ;;
  nattrs <- bp_Int32 ;;
  attrs <- repeatM (Z.to_nat nattrs)
             (name <- bp_String ;; ty <- bp_Int32 ;; ret (name, ty)) ;;
  count <- bp_Int32 ;;
  id64 <- bp_Int32 ;;
  matches <- repeatM (Z.to_nat count) (decodeMatch id64 (map snd attrs)) ;;
  total <- bp_Int32 ;;
  totalFound <- bp_Int32 ;;
  msecs <- bp_Uint32 ;;
  nwords <- bp_Int32 ;;
  words <- repeatM (Z.to_nat nwords) decodeWord ;;
  ret (mkResult fields (map fst attrs) (map snd attrs) matches
                total totalFound msecs words warning None status).

(** The result recorded for a query the daemon refused: only the status and
    the error are set, every other field keeps its zero value. *)
Definition failedResult (status : Z) (message : gostring) : Result :=
  mkResult [] [] [] [] 0 0 0 [] [] (Some (errors_New message)) status.

Definition decodeResult : Parser Result :=
  status <- bp_Int32 ;;
  if negb (status =? SEARCHD_OK) then
    message <- bp_String ;;
    if status =? SEARCHD_WARNING then decodeRest status message
    else ret (failedResult status message)
  else decodeRest status [].

Fixpoint decodeResults (n : nat) (results : list Result)
  : Parser (list Result) :=
  match n with
  | O => ret results
  | S k => r <- decodeResult ;; decodeResults k (results ++ [r])
  end.

(** ** Outcomes of the public functions *)

(** A call either returns its results or unwinds with a panic. *)
Inductive outcome (A : Type) : Type :=
| Returned (a : A)
| Panicked (why : panic).
Arguments Returned {A} a.
Arguments Panicked {A} why.

Definition Errorf (msg : string) : error := errors_New (str msg).

(** [fmt.Errorf] with a format that ends in one [%d]. *)
Definition Errorf_d (msg : string) (d : Z) : error :=
  errors_New (str msg ++ FormatInt d).

(** ** UTF-8

    The runtime's [decoderune], which the [range] loop over a string uses,
    and [utf8.DecodeRuneInString] give the same answers: the rune and its
    width, or U+FFFD and a width of one for a malformed sequence. *)

Definition runeError : Z := 0xFFFD.

Definition isCont (b : byte) : bool := (0x80 <=? u8 b) && (u8 b <=? 0xBF).

Definition maskx (b : byte) : Z := Z.land (u8 b) 0x3F.

(** [s] is the string from the current index on. *)
Definition decoderune (s : list byte) : Z * nat :=
  match s with
  | [] => (runeError, 1%nat)
  | s0 :: t =>
      let b0 := u8 s0 in
      if (0xC0 <=? b0) && (b0 <? 0xE0) then
        match t with
        | s1 :: _ =>
            if isCont s1 then
              let r := Z.lor (Z.shiftl (Z.land b0 0x1F) 6) (maskx s1) in
              if 0x7F <? r then (r, 2%nat) else (runeError, 1%nat)
            else (runeError, 1%nat)
        | _ => (runeError, 1%nat)
        end
      else if (0xE0 <=? b0) && (b0 <? 0xF0) then
        match t with
        | s1 :: s2 :: _ =>
            if isCont s1 && isCont s2 then
              let r := Z.lor (Z.lor (Z.shiftl (Z.land b0 0x0F) 12)
                                    (Z.shiftl (maskx s1) 6)) (maskx s2) in
              if (0x7FF <? r) && negb ((0xD800 <=? r) && (r <=? 0xDFFF))
              then (r, 3%nat) else (runeError, 1%nat)
            else (runeError, 1%nat)
        | _ => (runeError, 1%nat)
        end
      else if (0xF0 <=? b0) && (b0 <? 0xF8) then
        match t with
        | s1 :: s2 :: s3 :: _ =>
            if isCont s1 && isCont s2 && isCont s3 then
              let r := Z.lor (Z.lor (Z.lor (Z.shiftl (Z.land b0 0x07) 18)
                                           (Z.shiftl (maskx s1) 12))
                                    (Z.shiftl (maskx s2) 6)) (maskx s3) in
              if (0xFFFF <? r) && (r <=? 0x10FFFF)
              then (r, 4%nat) else (runeError, 1%nat)
            else (runeError, 1%nat)
        | _ => (runeError, 1%nat)
        end
      else (runeError, 1%nat)
  end.

(** ** Package fmt: a format without operands

    [fmt.Errorf(format)] with a format and nothing else runs [doPrintf]
    with an empty operand list.  Text is copied up to a percent sign; after
    it come flags, an argument index in brackets, a width, a precision and
    a verb.  With no operand to print, [%%] gives a percent sign, any other
    verb [v] gives [%!v(MISSING)], or [%!v(BADINDEX)] where an argument
    index or its place was wrong, a star gives [%!(BADWIDTH)] or
    [%!(BADPREC)], and a format that ends before its verb gives
    [%!(NOVERB)]. *)

Definition byteAt (s : list byte) (i : nat) : Z := u8 (nth i s x00).

(** [utf8.AppendRune]. *)
Definition encoderune (r : Z) : list byte :=
  if r <=? 0x7F then [byte_of r]
  else if r <=? 0x7FF then
    [byte_of (Z.lor 0xC0 (Z.shiftr r 6)); byte_of (Z.lor 0x80 (Z.land r 0x3F))]
  else if (0x10FFFF <? r) || ((0xD800 <=? r) && (r <=? 0xDFFF)) then
    [xef; xbf; xbd]
  else if r <=? 0xFFFF then
    [byte_of (Z.lor 0xE0 (Z.shiftr r 12));
     byte_of (Z.lor 0x80 (Z.land (Z.shiftr r 6) 0x3F));
     byte_of (Z.lor 0x80 (Z.land r 0x3F))]
  else
    [byte_of (Z.lor 0xF0 (Z.shiftr r 18));
     byte_of (Z.lor 0x80 (Z.land (Z.shiftr r 12) 0x3F));
     byte_of (Z.lor 0x80 (Z.land (Z.shiftr r 6) 0x3F));
     byte_of (Z.lor 0x80 (Z.land r 0x3F))].

Definition tooLarge (x : Z) : bool := (1000000 <? x) || (x <? -1000000).

(** The loop of [parsenum], with at most [n] digits left to look at. *)
Fixpoint parsenum_loop (n : nat) (s : list byte) (newi end_ : nat) (num : Z)
  (isnum : bool) : Z * bool * nat :=
  match n with
  | O => (num, isnum, newi)
  | S n' =>
      if (newi <? end_)%nat && (48 <=? byteAt s newi) && (byteAt s newi <=? 57)
      then
        if tooLarge num then (0, false, end_)
        else parsenum_loop n' s (S newi) end_
               (num * 10 + (byteAt s newi - 48)) true
      else (num, isnum, newi)
  end.

Definition parsenum (s : list byte) (start end_ : nat) : Z * bool * nat :=
  if (end_ <=? start)%nat then (0, false, end_)
  else parsenum_loop (end_ - start) s start end_ 0 false.

(** The first index from [i] on that holds a closing bracket. *)
Fixpoint closingBracket (n : nat) (format : list byte) (i : nat) : option nat :=
  match n with
  | O => None
  | S n' =>
      if (i <? List.length format)%nat then
        if byteAt format i =? 93 then Some i
        else closingBracket n' format (S i)
      else None
  end.

Definition parseArgNumber (format : list byte) : Z * nat * bool :=
  if (List.length format <? 3)%nat then (0, 1%nat, false)
  else
    match closingBracket (List.length format) format 1 with
    | Some i =>
        let '(width, ok, newi) := parsenum format 1 i in
        if negb ok || negb (newi =? i)%nat then (0, S i, false)
        else (width - 1, S i, true)
    | None => (0, 1%nat, false)
    end.

(** [argNumber] when [numArgs] is 0: an index can never be used, so the
    argument number stays where it is; the answer is the new position,
    whether an index was found, and [goodArgNum]. *)
Definition argNumber (format : list byte) (i : nat) (goodArgNum : bool)
  : nat * bool * bool :=
  if (List.length format <=? i)%nat || negb (byteAt format i =? 91) then
    (i, false, goodArgNum)
  else
    let '(index, wid, ok) := parseArgNumber (skipn i format) in
    if ok && (0 <=? index) && (index <? 0) then ((i + wid)%nat, true, goodArgNum)
    else ((i + wid)%nat, ok, false).

Fixpoint skipLiteral (n : nat) (format : list byte) (i : nat) : nat :=
  match n with
  | O => i
  | S n' =>
      if (i <? List.length format)%nat && negb (byteAt format i =? 37)
      then skipLiteral n' format (S i) else i
  end.

Definition isFlag (c : Z) : bool :=
  (c =? 35) || (c =? 48) || (c =? 43) || (c =? 45) || (c =? 32).

Fixpoint skipFlags (n : nat) (format : list byte) (i : nat) : nat :=
  match n with
  | O => i
  | S n' =>
      if (i <? List.length format)%nat && isFlag (byteAt format i)
      then skipFlags n' format (S i) else i
  end.

Fixpoint doPrintf (fuel : nat) (format : list byte) (i : nat)
  (buf : list byte) : list byte :=
  match fuel with
  | O => buf
  | S fuel' =>
      let end_ := List.length format in
      if (end_ <=? i)%nat then buf
      else
        let lasti := i in
        let i := skipLiteral end_ format i in
        let buf := buf ++ sub format lasti i in
        if (end_ <=? i)%nat then buf
        else
          let i := S i in
          let i := skipFlags end_ format i in
          let '(i, afterIndex, goodArgNum) := argNumber format i true in
          let '(i, buf, afterIndex, goodArgNum) :=
            if (i <? end_)%nat && (byteAt format i =? 42) then
              (S i, buf ++ str "%!(BADWIDTH)", false, goodArgNum)
            else
              let '(_, widPresent, i) := parsenum format i end_ in
              (i, buf, afterIndex,
               if afterIndex && widPresent then false else goodArgNum) in
          let '(i, buf, afterIndex, goodArgNum) :=
            if (i <? end_)%nat && (byteAt format i =? 46) then
              let i := S i in
              let goodArgNum := if afterIndex then false else goodArgNum in
              let '(i, afterIndex, goodArgNum) :=
                argNumber format i goodArgNum in
              if (i <? end_)%nat && (byteAt format i =? 42) then
                (S i, buf ++ str "%!(BADPREC)", false, goodArgNum)
              else
                let '(_, _, i) := parsenum format i end_ in
                (i, buf, afterIndex, goodArgNum)
            else (i, buf, afterIndex, goodArgNum) in
          let '(i, afterIndex, goodArgNum) :=
            if afterIndex then (i, afterIndex, goodArgNum)
            else argNumber format i goodArgNum in
          if (end_ <=? i)%nat then buf ++ str "%!(NOVERB)"
          else
            let '(verb, size) :=
              if byteAt format i <? 0x80 then (byteAt format i, 1%nat)
              else decoderune (skipn i format) in
            let i := (i + size)%nat in
            let buf :=
              if verb =? 37 then buf ++ str "%"
              else if negb goodArgNum then
                buf ++ str "%!" ++ encoderune verb ++ str "(BADINDEX)"
              else buf ++ str "%!" ++ encoderune verb ++ str "(MISSING)" in
            doPrintf fuel' format i buf
  end.

Definition Sprintf (format : gostring) : gostring :=
  doPrintf (S (List.length format)) format 0 [].

(** [fmt.Errorf(format)]. *)
Definition Errorf0 (format : gostring) : error := errors_New (Sprintf format).

(** ** Query configuration state *)

Record filter : Type := mkFilter {
  attr : gostring;
  filterType : Z;
  values : list Z;
  umin : Z;
  umax : Z;
  fmin : Z;
  fmax : Z;
  exclude : bool
}.

(** The dynamic values an [interface{}] of an override map can hold. *)
Inductive iface : Type :=
| I_int (v : Z)
| I_float32 (bits : Z)
| I_uint64 (v : Z)
| I_string (s : gostring)
| I_bool (b : bool)
| I_nil.

Record override : Type := mkOverride {
  attrName : gostring;
  attrType : Z;
  o_values : list (Z * iface)
}.

Record Options : Type := mkOptions {
  Host : gostring;
  Port : Z;
  Socket : gostring;
  SqlPort : Z;
  SqlSocket : gostring;
  RetryCount : Z;
  RetryDelay : Z;
  Timeout : Z;
  Offset : Z;
  Limit : Z;
  MaxMatches : Z;
  Cutoff : Z;
  MaxQueryTime : Z;
  Select : gostring;
  MatchMode : Z;
  RankMode : Z;
  RankExpr : gostring;
  SortMode : Z;
  SortBy : gostring;
  MinId : Z;
  MaxId : Z;
  LatitudeAttr : gostring;
  LongitudeAttr : gostring;
  Latitude : Z;
  Longitude : Z;
  GroupBy : gostring;
  GroupFunc : Z;
  GroupSort : gostring;
  GroupDistinct : gostring
}.

(** A connection: the bytes the peer still has to deliver, the bytes written
    so far, and the errors [SetDeadline] and [Write] will answer with. *)
Record Conn : Type := mkConn {
  inbox : list byte;
  outbox : list byte;
  deadlineErr : option error;
  writeErr : option error
}.

(** The embedded [*Options] is kept by value: every property below concerns
    one client at a time.  The SphinxQL fields [DB] and [val] are left out. *)
Record Client : Type := mkClient {
  opts : Options;
  conn : option Conn;
  warning : gostring;
  err : option error;
  connerror : bool;
  weights : list Z;
  filters : list filter;
  reqs : list (list byte);
  indexWeights : list (gostring * Z);
  fieldWeights : list (gostring * Z);
  overrides : option (list (gostring * override))
}.

Definition set_opts (sc : Client) (o : Options) : Client :=
  mkClient o (conn sc) (warning sc) (err sc) (connerror sc) (weights sc)
    (filters sc) (reqs sc) (indexWeights sc) (fieldWeights sc) (overrides sc).

Definition set_conn (sc : Client) (c : option Conn) : Client :=
  mkClient (opts sc) c (warning sc) (err sc) (connerror sc) (weights sc)
    (filters sc) (reqs sc) (indexWeights sc) (fieldWeights sc) (overrides sc).

Definition set_warning (sc : Client) (w : gostring) : Client :=
  mkClient (opts sc) (conn sc) w (err sc) (connerror sc) (weights sc)
    (filters sc) (reqs sc) (indexWeights sc) (fieldWeights sc) (overrides sc).

Definition set_err (sc : Client) (e : error) : Client :=
  mkClient (opts sc) (conn sc) (warning sc) (Some e) (connerror sc)
    (weights sc) (filters sc) (reqs sc) (indexWeights sc) (fieldWeights sc)
    (overrides sc).

Definition set_connerror (sc : Client) (b : bool) : Client :=
  mkClient (opts sc) (conn sc) (warning sc) (err sc) b (weights sc)
    (filters sc) (reqs sc) (indexWeights sc) (fieldWeights sc) (overrides sc).

Definition set_filters (sc : Client) (f : list filter) : Client :=
  mkClient (opts sc) (conn sc) (warning sc) (err sc) (connerror sc)
    (weights sc) f (reqs sc) (indexWeights sc) (fieldWeights sc)
    (overrides sc).

Definition set_reqs (sc : Client) (r : list (list byte)) : Client :=
  mkClient (opts sc) (conn sc) (warning sc) (err sc) (connerror sc)
    (weights sc) (filters sc) r (indexWeights sc) (fieldWeights sc)
    (overrides sc).

Definition set_overrides (sc : Client)
  (o : option (list (gostring * override))) : Client :=
  mkClient (opts sc) (conn sc) (warning sc) (err sc) (connerror sc)
    (weights sc) (filters sc) (reqs sc) (indexWeights sc) (fieldWeights sc) o.

Definition DefaultOptions : Options :=
  mkOptions (str "localhost") 9312 [] 9306 [] 0 0 1000
    0 20 1000 0 0 (str "*") SPH_MATCH_EXTENDED SPH_RANK_PROXIMITY_BM25 []
    SPH_SORT_RELEVANCE [] 0 0 [] [] 0 0 [] SPH_GROUPBY_DAY
    (str "@group desc") [].

(** [&Client{Options: o}]: every other field has its zero value, the three
    maps are nil. *)
Definition newClientWith (o : Options) : Client :=
  mkClient o None [] None false [] [] [] [] [] None.

Definition NewClient (opts : list Options) : Client :=
  match opts with
  | o :: _ => newClientWith o
  | [] => newClientWith DefaultOptions
  end.

Definition GetLastError (sc : Client) : option error := err sc.

Definition GetLastWarning (sc : Client) : gostring := warning sc.

(** *** Setters *)

Definition with_limits (o : Options) (offset limit maxMatches cutoff : Z)
  : Options :=
  mkOptions (Host o) (Port o) (Socket o) (SqlPort o) (SqlSocket o)
    (RetryCount o) (RetryDelay o) (Timeout o)
    offset limit maxMatches cutoff (MaxQueryTime o) (Select o)
    (MatchMode o) (RankMode o) (RankExpr o) (SortMode o) (SortBy o)
    (MinId o) (MaxId o) (LatitudeAttr o) (LongitudeAttr o) (Latitude o)
    (Longitude o) (GroupBy o) (GroupFunc o) (GroupSort o) (GroupDistinct o).

Definition SetLimits (sc : Client) (offset limit maxMatches cutoff : Z)
  : Client :=
  if offset <? 0 then
    set_err sc (Errorf_d "SetLimits > offset must not be negative: " offset)
  else if limit <=? 0 then
    set_err sc (Errorf_d "SetLimits > limit must be positive: " limit)
  else if maxMatches <=? 0 then
    set_err sc
      (Errorf_d "SetLimits > maxMatches must be positive: " maxMatches)
  else if cutoff <? 0 then
    set_err sc (Errorf_d "SetLimits > cutoff must not be negative: " cutoff)
  else
    let o := opts sc in
    set_opts sc
      (with_limits o offset limit
         (if 0 <? maxMatches then maxMatches else MaxMatches o)
         (if 0 <? cutoff then cutoff else Cutoff o)).

Definition SetFilter (sc : Client) (attr : gostring) (values : list Z)
  (exclude : bool) : Client :=
  if gostring_eqb attr [] then
    set_err sc (Errorf "SetFilter > attribute name is empty!")
  else if len values =? 0 then
    set_err sc (Errorf "SetFilter > values is empty!")
  else
    set_filters sc
      (filters sc ++ [mkFilter attr SPH_FILTER_VALUES values 0 0 0 0 exclude]).

Definition SetFilterRange (sc : Client) (attr : gostring) (umin umax : Z)
  (exclude : bool) : Client :=
  if gostring_eqb attr [] then
    set_err sc (Errorf "SetFilterRange > attribute name is empty!")
  else if umax <? umin then
    set_err sc
      (errors_New (str "SetFilterRange > min > max! umin:" ++ FormatInt umin
                   ++ str "  umax:" ++ FormatInt umax))
  else
    set_filters sc
      (filters sc ++ [mkFilter attr SPH_FILTER_RANGE [] umin umax 0 0 exclude]).

(** [m[k] = v] on an association list: replace the entry of [k] if there is
    one, add one otherwise. *)
Fixpoint map_assign {V : Type} (m : list (gostring * V)) (k : gostring)
  (v : V) : list (gostring * V) :=
  match m with
  | [] => [(k, v)]
  | (k', v') :: m' =>
      if gostring_eqb k' k then (k, v) :: m' else (k', v') :: map_assign m' k v
  end.

(** The third conjunct of the guard compares two constants in the source
    ([SPH_ATTR_MULTI != SPH_ATTR_MULTI64]); it is kept as written. *)
Definition SetOverride (sc : Client) (attrName : gostring) (attrType : Z)
  (values : list (Z * iface)) : outcome Client :=
  if gostring_eqb attrName [] then
    Returned (set_err sc (Errorf "SetOverride > attrName is empty!"))
  else if ((attrType <? 1) || (SPH_ATTR_STRING <? attrType))
          && negb (attrType =? SPH_ATTR_MULTI)
          && negb (SPH_ATTR_MULTI =? SPH_ATTR_MULTI64) then
    Returned (set_err sc (Errorf_d "SetOverride > invalid attrType: " attrType))
  else
    match overrides sc with
    | None => Panicked assignment_to_entry_in_nil_map
    | Some m =>
        Returned (set_overrides sc
          (Some (map_assign m attrName (mkOverride attrName attrType values))))
    end.

(** ** AddQuery *)

(** The request under construction: the bytes so far, an early
    [return -1, err], or a panic. *)
Inductive enc : Type :=
| EncOk (req : list byte)
| EncErr (e : error)
| EncPanic (why : panic).

Fixpoint foldEnc {A : Type} (f : list byte -> A -> enc) (l : list A)
  (req : list byte) : enc :=
  match l with
  | [] => EncOk req
  | a :: l' =>
      match f req a with
      | EncOk req' => foldEnc f l' req'
      | stop => stop
      end
  end.

Definition encodeFilter (req : list byte) (f : filter) : list byte :=
  let req := writeLenStrToBytes req (attr f) in
  let req := writeInt32ToBytes req (filterType f) in
  let req :=
    if filterType f =? SPH_FILTER_VALUES then
      fold_left writeInt64ToBytes (values f)
        (writeInt32ToBytes req (len (values f)))
    else if filterType f =? SPH_FILTER_RANGE then
      writeInt64ToBytes (writeInt64ToBytes req (umin f)) (umax f)
    else if filterType f =? SPH_FILTER_FLOATRANGE then
      writeFloat32ToBytes (writeFloat32ToBytes req (fmin f)) (fmax f)
    else req in
  if exclude f then writeInt32ToBytes req 1 else writeInt32ToBytes req 0.

Definition encodeWeight (req : list byte) (kv : gostring * Z) : list byte :=
  writeInt32ToBytes (writeLenStrToBytes req (fst kv)) (snd kv).

(** One pass of the inner loop over [override.values]; [v.(int)],
    [v.(float32)] and [v.(uint64)] are unchecked type assertions. *)
Definition encodeOverrideValue (attrType : Z) (req : list byte)
  (idv : Z * iface) : enc :=
  let req := writeInt64ToBytes req (fst idv) in
  if attrType =? SPH_ATTR_INTEGER then
    match snd idv with
    | I_int i => EncOk (writeInt32ToBytes req i)
    | _ => EncPanic interface_conversion
    end
  else if attrType =? SPH_ATTR_FLOAT then
    match snd idv with
    | I_float32 f => EncOk (writeFloat32ToBytes req f)
    | _ => EncPanic interface_conversion
    end
  else if attrType =? SPH_ATTR_BIGINT then
    match snd idv with
    | I_uint64 u => EncOk (writeInt64ToBytes req u)
    | _ => EncPanic interface_conversion
    end
  else
    EncErr (Errorf "AddQuery > attr value is not int/float32/uint64.").

Definition encodeOverride (req : list byte) (kv : gostring * override) : enc :=
  let o := snd kv in
  let req := writeLenStrToBytes req (attrName o) in
  let req := writeInt32ToBytes req (attrType o) in
  let req := writeInt32ToBytes req (len (o_values o)) in
  foldEnc (encodeOverrideValue (attrType o)) (o_values o) req.

Definition map_entries {V : Type} (m : option (list (gostring * V)))
  : list (gostring * V) :=
  match m with
  | Some l => l
  | None => []
  end.

(** The local buffer [req] of AddQuery, up to the select-list. *)
Definition AddQuery_req (sc : Client) (query index comment : gostring) : enc :=
  let o := opts sc in
  let req := writeInt32ToBytes [] (Offset o) in
  let req := writeInt32ToBytes req (Limit o) in
  let req := writeInt32ToBytes req (MatchMode o) in
  let req := writeInt32ToBytes req (RankMode o) in
  let req := if RankMode o =? SPH_RANK_EXPR
             then writeLenStrToBytes req (RankExpr o) else req in
  let req := writeInt32ToBytes req (SortMode o) in
  let req := writeLenStrToBytes req (SortBy o) in
  let req := writeLenStrToBytes req query in
  let req := writeInt32ToBytes req (len (weights sc)) in
  let req := fold_left writeInt32ToBytes (weights sc) req in
  let req := writeLenStrToBytes req index in
  let req := writeInt32ToBytes req 1 in
  let req := writeInt64ToBytes req (MinId o) in
  let req := writeInt64ToBytes req (MaxId o) in
  let req := writeInt32ToBytes req (len (filters sc)) in
  let req := fold_left encodeFilter (filters sc) req in
  let req := writeInt32ToBytes req (GroupFunc o) in
  let req := writeLenStrToBytes req (GroupBy o) in
  let req := writeInt32ToBytes req (MaxMatches o) in
  let req := writeLenStrToBytes req (GroupSort o) in
  let req := writeInt32ToBytes req (Cutoff o) in
  let req := writeInt32ToBytes req (RetryCount o) in
  let req := writeInt32ToBytes req (RetryDelay o) in
  let req := writeLenStrToBytes req (GroupDistinct o) in
  let req :=
    if gostring_eqb (LatitudeAttr o) [] || gostring_eqb (LongitudeAttr o) []
    then writeInt32ToBytes req 0
    else
      let req := writeInt32ToBytes req 1 in
      let req := writeLenStrToBytes req (LatitudeAttr o) in
      let req := writeLenStrToBytes req (LongitudeAttr o) in
      let req := writeFloat32ToBytes req (Latitude o) in
      writeFloat32ToBytes req (Longitude o) in
  let req := writeInt32ToBytes req (len (indexWeights sc)) in
  let req := fold_left encodeWeight (indexWeights sc) req in
  let req := writeInt32ToBytes req (MaxQueryTime o) in
  let req := writeInt32ToBytes req (len (fieldWeights sc)) in
  let req := fold_left encodeWeight (fieldWeights sc) req in
  let req := writeLenStrToBytes req comment in
  let req := writeInt32ToBytes req (len (map_entries (overrides sc))) in
  match foldEnc encodeOverride (map_entries (overrides sc)) req with
  | EncOk req => EncOk (writeLenStrToBytes req (Select o))
  | stop => stop
  end.

Definition AddQuery (sc : Client) (query index comment : gostring)
  : Client * outcome (Z * option error) :=
  match AddQuery_req sc query index comment with
  | EncOk req =>
      let sc := set_reqs sc (reqs sc ++ [req]) in
      (sc, Returned (len (reqs sc) - 1, None))
  | EncErr e => (sc, Returned (-1, Some e))
  | EncPanic w => (sc, Panicked w)
  end.

(** ** Connection manager *)

(** [net.DialTimeout network address]: a connection or an error. *)
Record Network : Type := mkNetwork {
  DialTimeout : gostring -> gostring -> Conn + error
}.

Definition conn_Write (c : Conn) (b : list byte) : Conn * option error :=
  match writeErr c with
  | Some e => (c, Some e)
  | None =>
      (mkConn (inbox c) (outbox c ++ b) (deadlineErr c) (writeErr c), None)
  end.

(** [io.ReadFull(conn, buf)] with [len(buf) = n]: the bytes read and whether
    all [n] arrived. *)
Definition ReadFull (c : Conn) (n : Z) : Conn * list byte * bool :=
  let got := firstn (Z.to_nat n) (inbox c) in
  (mkConn (skipn (Z.to_nat n) (inbox c)) (outbox c) (deadlineErr c)
     (writeErr c),
   got, n <=? len (inbox c)).

Definition connect (net : Network) (sc : Client) : Client * option error :=
  match conn sc with
  | Some _ => (sc, None)
  | None =>
      let sc := set_connerror sc false in
      let o := opts sc in
      let dialed :=
        if negb (gostring_eqb (Socket o) []) then
          Some (DialTimeout net (str "unix") (Socket o))
        else if 0 <? Port o then
          Some (DialTimeout net (str "tcp")
                  (Host o ++ str ":" ++ FormatInt (Port o)))
        else None in
      match dialed with
      | None => (sc, Some (Errorf "connect() > No valid socket or port!"))
      | Some (inr e) =>
          (set_connerror sc true,
           Some (errors_New (str "connect() net.DialTimeout("
                             ++ FormatInt (Timeout o) ++ str " ms) > "
                             ++ error_msg e)))
      | Some (inl c) =>
          let sc := set_conn sc (Some c) in
          match deadlineErr c with
          | Some e =>
              (set_connerror sc true,
               Some (errors_New (str "connect() conn.SetDeadline() > "
                                 ++ error_msg e)))
          | None =>
              let '(c, header, full) := ReadFull c 4 in
              let sc := set_conn sc (Some c) in
              if negb full then
                (set_connerror sc true,
                 Some (Errorf "connect() io.ReadFull() > EOF"))
              else
                let version := Uint32 header in
                if version <? 1 then
                  (sc, Some (Errorf_d
                     "connect() > expected searchd protocol version 1+, got version "
                     version))
                else
                  let '(c, werr) :=
                    conn_Write c (writeInt32ToBytes [] VER_MAJOR_PROTO) in
                  let sc := set_conn sc (Some c) in
                  match werr with
                  | Some e =>
                      (set_connerror sc true,
                       Some (errors_New (str "connect() conn.Write() > "
                                         ++ error_msg e)))
                  | None => (sc, None)
                  end
          end
      end
  end.

(** What the deferred [recover] of doRequest turns a panic into. *)
Definition recovered (sc : Client) : Client * (list byte * option error) :=
  (sc, ([], Some (Errorf
     "doRequest panic > runtime error: slice bounds out of range"))).

Definition doRequest (net : Network) (command version : Z) (req : list byte)
  (sc : Client) : Client * (list byte * option error) :=
  let '(sc, cerr) := connect net sc in
  match cerr with
  | Some e => (sc, ([], Some e))
  | None =>
  match conn sc with
  | None => recovered sc
  | Some c =>
      let cmdVerLen := writeInt16ToBytes [] command in
      let cmdVerLen := writeInt16ToBytes cmdVerLen version in
      let cmdVerLen := writeInt32ToBytes cmdVerLen (len req) in
      let req := cmdVerLen ++ req in
      let '(c, werr) := conn_Write c req in
      let sc := set_conn sc (Some c) in
      match werr with
      | Some e =>
          (set_connerror sc true,
           ([], Some (errors_New (str "conn.Write error: " ++ error_msg e))))
      | None =>
      let '(c, header, full) := ReadFull c 8 in
      let sc := set_conn sc (Some c) in
      if negb full then
        (set_connerror sc true,
         ([], Some (errors_New (str "doRequest > just read "
                                ++ FormatInt (len header)
                                ++ str " bytes into header!"))))
      else
      let status := Uint16 (sub header 0 2) in
      let ver := Uint16 (sub header 2 4) in
      let size := Uint32 (sub header 4 8) in
      if size <=? 0 then
        (sc, ([], Some (errors_New
           (str "doRequest > invalid response packet size (len="
            ++ FormatInt size ++ str ")."))))
      else
      let '(c, res, full) := ReadFull c size in
      let sc := set_conn sc (Some c) in
      if negb full then
        (set_connerror sc true,
         ([], Some (errors_New (str "doRequest > just read "
                                ++ FormatInt (len res)
                                ++ str " bytes into res (size="
                                ++ FormatInt size ++ str ")."))))
      else if status =? SEARCHD_OK then (sc, (res, None))
      else if status =? SEARCHD_WARNING then
        match slice res 0 4 with
        | None => recovered sc
        | Some w4 =>
            let hi := (4 + Uint32 w4) mod 2 ^ 32 in
            match slice res 4 hi with
            | None => recovered sc
            | Some w =>
                let sc := set_warning sc w in
                match slice res hi (len res) with
                | None => recovered sc
                | Some rest => (sc, (rest, None))
                end
            end
        end
      else if (status =? SEARCHD_ERROR) || (status =? SEARCHD_RETRY) then
        match slice res 0 4 with
        | None => recovered sc
        | Some w4 =>
            let hi := (4 + Uint32 w4) mod 2 ^ 32 in
            match slice res 4 hi with
            | None => recovered sc
            | Some w =>
                (sc, ([], Some (errors_New
                   (str "doRequest > SEARCHD_ERROR: " ++ w))))
            end
        end
      else
        (sc, ([], Some (errors_New
           (str "doRequest > unknown status code (status="
            ++ FormatInt status ++ str "), ver: " ++ FormatInt ver))))
      end
  end
  end.

(** ** RunQueries and Query *)

(** The body handed to doRequest: client marker, count, then the pending
    requests appended one after the other. *)
Definition RunQueries_allReqs (sc : Client) : list byte :=
  let allReqs := writeInt32ToBytes [] 0 in
  let allReqs := writeInt32ToBytes allReqs (len (reqs sc)) in
  fold_left (fun allReqs req => allReqs ++ req) (reqs sc) allReqs.

Definition RunQueries (net : Network) (sc : Client)
  : Client * outcome (list Result * option error) :=
  if len (reqs sc) =? 0 then
    (sc, Returned ([], Some (Errorf
       "RunQueries > No queries defined, issue AddQuery() first.")))
  else
    let nreqs := len (reqs sc) in
    let allReqs := RunQueries_allReqs sc in
    let '(sc, (response, err)) :=
      doRequest net SEARCHD_COMMAND_SEARCH VER_COMMAND_SEARCH allReqs sc in
    match err with
    | Some e => (sc, Returned ([], Some e))
    | None =>
        match decodeResults (Z.to_nat nreqs) [] (mkBP response 0) with
        | Val results _ => (set_reqs sc [], Returned (results, None))
        | Ret e => (sc, Returned ([], Some e))
        | Panic w => (sc, Panicked w)
        end
    end.

Definition Query (net : Network) (sc : Client) (query index comment : gostring)
  : Client * outcome (option Result * option error) :=
  let index := if gostring_eqb index [] then str "*" else index in
  let sc := set_reqs sc [] in
  match AddQuery sc query index comment with
  | (sc, Panicked w) => (sc, Panicked w)
  | (sc, Returned (_, Some e)) => (sc, Returned (None, Some e))
  | (sc, Returned (_, None)) =>
      match RunQueries net sc with
      | (sc, Panicked w) => (sc, Panicked w)
      | (sc, Returned (_, Some e)) => (sc, Returned (None, Some e))
      | (sc, Returned (results, None)) =>
          match results with
          | [] => (sc, Returned (None, Some (Errorf "Query > Empty results!")))
          | result :: _ =>
              match Error result with
              | Some e =>
                  (sc, Returned (None, Some (errors_New
                     (str "Query > Result error: " ++ error_msg e))))
              | None =>
                  (set_warning sc (Warning result),
                   Returned (Some result, None))
              end
          end
      end
  end.

(** ** BuildExcerpts *)

Module ExcerptsOpts.
Record t : Type := mk {
  BeforeMatch : gostring;
  AfterMatch : gostring;
  ChunkSeparator : gostring;
  Limit : Z;
  Around : Z;
  ExactPhrase : bool;
  SinglePassage : bool;
  UseBoundaries : bool;
  WeightOrder : bool;
  QueryMode : bool;
  ForceAllWords : bool;
  LimitPassages : Z;
  LimitWords : Z;
  StartPassageId : Z;
  LoadFiles : bool;
  LoadFilesScattered : bool;
  HtmlStripMode : gostring;
  AllowEmpty : bool;
  PassageBoundary : gostring;
  EmitZones : bool
}.
End ExcerptsOpts.

Definition orDefault (s d : gostring) : gostring :=
  if gostring_eqb s [] then d else s.

Definition orDefaultZ (i d : Z) : Z := if i =? 0 then d else i.

Definition BuildExcerpts_iFlags (o : ExcerptsOpts.t) : Z :=
  let iFlags := 1 in
  let iFlags := if ExcerptsOpts.ExactPhrase o then Z.lor iFlags 2 else iFlags in
  let iFlags := if ExcerptsOpts.SinglePassage o then Z.lor iFlags 4 else iFlags in
  let iFlags := if ExcerptsOpts.UseBoundaries o then Z.lor iFlags 8 else iFlags in
  let iFlags := if ExcerptsOpts.WeightOrder o then Z.lor iFlags 16 else iFlags in
  let iFlags := if ExcerptsOpts.QueryMode o then Z.lor iFlags 32 else iFlags in
  let iFlags := if ExcerptsOpts.ForceAllWords o then Z.lor iFlags 64 else iFlags in
  let iFlags := if ExcerptsOpts.LoadFiles o then Z.lor iFlags 128 else iFlags in
  let iFlags := if ExcerptsOpts.AllowEmpty o then Z.lor iFlags 256 else iFlags in
  let iFlags := if ExcerptsOpts.EmitZones o then Z.lor iFlags 256 else iFlags in
  iFlags.

(** The checks, the defaults and the request of BuildExcerpts, up to the
    call of doRequest. *)
Definition BuildExcerpts_req (docs : list gostring) (index words : gostring)
  (o : ExcerptsOpts.t) : list byte + error :=
  if len docs =? 0 then
    inr (Errorf "BuildExcerpts > Have no documents to process!")
  else if gostring_eqb index [] then
    inr (Errorf "BuildExcerpts > index name is empty!")
  else if gostring_eqb words [] then
    inr (Errorf "BuildExcerpts > Have no words to highlight!")
  else
    let pb := ExcerptsOpts.PassageBoundary o in
    if negb (gostring_eqb pb []) && negb (gostring_eqb pb (str "sentence"))
       && negb (gostring_eqb pb (str "paragraph"))
       && negb (gostring_eqb pb (str "zone")) then
      inr (errors_New (str
        "BuildExcerpts > PassageBoundary allowed values are 'sentence', 'paragraph', and 'zone', now is: "
        ++ pb))
    else
      let req := writeInt32ToBytes [] 0 in
      let req := writeInt32ToBytes req (BuildExcerpts_iFlags o) in
      let req := writeLenStrToBytes req index in
      let req := writeLenStrToBytes req words in
      let req := writeLenStrToBytes req
                   (orDefault (ExcerptsOpts.BeforeMatch o) (str "<b>")) in
      let req := writeLenStrToBytes req
                   (orDefault (ExcerptsOpts.AfterMatch o) (str "</b>")) in
      let req := writeLenStrToBytes req
                   (orDefault (ExcerptsOpts.ChunkSeparator o) (str "...")) in
      let req := writeInt32ToBytes req (orDefaultZ (ExcerptsOpts.Limit o) 256) in
      let req := writeInt32ToBytes req (orDefaultZ (ExcerptsOpts.Around o) 5) in
      let req := writeInt32ToBytes req (ExcerptsOpts.LimitPassages o) in
      let req := writeInt32ToBytes req (ExcerptsOpts.LimitWords o) in
      let req := writeInt32ToBytes req
                   (orDefaultZ (ExcerptsOpts.StartPassageId o) 1) in
      let req := writeLenStrToBytes req
                   (orDefault (ExcerptsOpts.HtmlStripMode o) (str "index")) in
      let req := writeLenStrToBytes req pb in
      let req := writeInt32ToBytes req (len docs) in
      inl (fold_left writeLenStrToBytes docs req).

Definition BuildExcerpts (net : Network) (sc : Client) (docs : list gostring)
  (index words : gostring) (o : ExcerptsOpts.t)
  : Client * outcome (list gostring * option error) :=
  match BuildExcerpts_req docs index words o with
  | inr e => (sc, Returned ([], Some e))
  | inl req =>
      let '(sc, (response, err)) :=
        doRequest net SEARCHD_COMMAND_EXCERPT VER_COMMAND_EXCERPT req sc in
      match err with
      | Some e => (sc, Returned ([], Some e))
      | None =>
          match repeatM (List.length docs) bp_String (mkBP response 0) with
          | Val resDocs _ => (sc, Returned (resDocs, None))
          | Ret e => (sc, Returned ([], Some e))
          | Panic w => (sc, Panicked w)
          end
      end
  end.

(** ** SphinxQL literals (sphinxql.go) *)

(** *** Ranging over a string

    [for ii, bb := range txt] decodes one UTF-8 sequence per pass: a byte
    below 0x80 is its own rune, anything else goes through [decoderune]. *)


(** *** escapeString *)






(** *** GetValQuoteStr *)


Section Marshal.

(** [strconv.FormatFloat(f, 'f', -1, 64)], on the bits of the float64. *)
Variable FormatFloat : Z -> gostring.


End Marshal.




(** ** Vocabulary of the statements *)

(** The same parser state seen inside a longer stream: [pre] in front of
    the bytes, [post] behind them. *)
Definition shiftBP (pre post : list byte) (bp : byteParser) : byteParser :=
  mkBP (pre ++ stream bp ++ post) (len pre + p bp).

(** A parser is [framed] when a successful run depends on nothing but the
    bytes between the cursor before and the cursor after. *)
Definition framed {A : Type} (m : Parser A) : Prop :=
  forall pre post bp a bp',
    m bp = Val a bp' ->
    m (shiftBP pre post bp) = Val a (shiftBP pre post bp').

(** [b] is the complete encoding of the result [r]: decoding one result
    from the start of [b] yields [r] and ends exactly at the end of [b]. *)
Definition encodes (br : list byte * Result) : Prop :=
  decodeResult (mkBP (fst br) 0) = Val (snd br) (mkBP (fst br) (len (fst br))).



Definition isWord32 (v : Z) : Prop := 0 <= v < 2 ^ 32.

(** ** Sample data for the concrete statements *)


(** The encoding of a successful result without fields, attributes,
    matches or words: total 3, total found 3, one millisecond. *)
Definition sample_okBlock : list byte :=
  let w := writeInt32ToBytes [] in
  w 0 ++ w 0 ++ w 0 ++ w 0 ++ w 0 ++ w 3 ++ w 3 ++ w 1 ++ w 0.

Definition sample_okResult : Result :=
  mkResult [] [] [] [] 3 3 1 [] [] None 0.

(** A reply of the daemon with status OK around [body]. *)
Definition sample_reply (body : list byte) : list byte :=
  writeInt32ToBytes
    (writeInt16ToBytes (writeInt16ToBytes [] SEARCHD_OK) VER_COMMAND_SEARCH)
    (len body) ++ body.

(** A network on which no dial succeeds. *)
Definition sample_net : Network :=
  mkNetwork (fun _ _ => inr (Errorf "dial: connection refused")).

(** A client over an open connection that will deliver [incoming], with
    [pending] in its queue. *)
Definition sample_client (incoming : list byte) (pending : list (list byte))
  : Client :=
  set_reqs (set_conn (NewClient []) (Some (mkConn incoming [] None None)))
    pending.


(** A client with one query added, over a connection that will deliver one
    successful result. *)
Definition sample_queued : Client :=
  fst (AddQuery (sample_client (sample_reply sample_okBlock) [])
         (str "test") (str "*") []).

(** A response that declares five matches and ends right there. *)
Definition truncated_response : list byte :=
  let w := writeInt32ToBytes [] in
  w 0 ++ w 0 ++ w 0 ++ w 5 ++ w 0.


(** [o] with its AllowEmpty and EmitZones options replaced. *)
Definition withAllowEmptyEmitZones (o : ExcerptsOpts.t)
  (allowEmpty emitZones : bool) : ExcerptsOpts.t :=
  ExcerptsOpts.mk (ExcerptsOpts.BeforeMatch o) (ExcerptsOpts.AfterMatch o)
    (ExcerptsOpts.ChunkSeparator o) (ExcerptsOpts.Limit o)
    (ExcerptsOpts.Around o) (ExcerptsOpts.ExactPhrase o)
    (ExcerptsOpts.SinglePassage o) (ExcerptsOpts.UseBoundaries o)
    (ExcerptsOpts.WeightOrder o) (ExcerptsOpts.QueryMode o)
    (ExcerptsOpts.ForceAllWords o) (ExcerptsOpts.LimitPassages o)
    (ExcerptsOpts.LimitWords o) (ExcerptsOpts.StartPassageId o)
    (ExcerptsOpts.LoadFiles o) (ExcerptsOpts.LoadFilesScattered o)
    (ExcerptsOpts.HtmlStripMode o) allowEmpty
    (ExcerptsOpts.PassageBoundary o) emitZones.

(** ** Vocabulary of the further properties *)

(** The cursor lies inside the stream. *)
Definition inside (bp : byteParser) : Prop := 0 <= p bp <= len (stream bp).

(** A parser that, when it succeeds from inside the stream, leaves the
    stream alone, never moves the cursor backwards and stays inside. *)
Definition advances {A : Type} (m : Parser A) : Prop :=
  forall bp a bp',
    inside bp -> m bp = Val a bp' ->
    stream bp' = stream bp /\ p bp <= p bp' /\ inside bp'.

(** Every value a parser can produce satisfies [P]. *)
Definition yields {A : Type} (m : Parser A) (P : A -> Prop) : Prop :=
  forall bp a bp', m bp = Val a bp' -> P a.

(** The variant of a decoded attribute value agrees with the declared
    attribute type. *)
Definition attrValueOk (ty : Z) (v : AttrValue) : Prop :=
  match v with
  | AVuint64 _ => ty = SPH_ATTR_BIGINT
  | AVfloat32 _ => ty = SPH_ATTR_FLOAT
  | AVstring _ => ty = SPH_ATTR_STRING
  | AVmulti _ => ty = SPH_ATTR_MULTI
  | AVmulti64 _ => ty = SPH_ATTR_MULTI64
  | AVuint32 _ =>
      ty <> SPH_ATTR_BIGINT /\ ty <> SPH_ATTR_FLOAT /\ ty <> SPH_ATTR_STRING
      /\ ty <> SPH_ATTR_MULTI /\ ty <> SPH_ATTR_MULTI64
  end.

(** Attribute names, attribute types and the values of every match line up
    index by index. *)
Definition aligned (r : Result) : Prop :=
  List.length (AttrNames r) = List.length (AttrTypes r)
  /\ Forall (fun m => Forall2 attrValueOk (AttrTypes r) (AttrValues m))
            (Matches r).

(** Status, error and warning of a decoded result agree: an error is
    present exactly when the status is neither OK nor WARNING, and then
    nothing else was decoded; a warning text needs the status WARNING. *)
Definition statusConsistent (r : Result) : Prop :=
  match Error r with
  | Some _ =>
      Status r <> SEARCHD_OK /\ Status r <> SEARCHD_WARNING
      /\ Fields r = [] /\ AttrNames r = [] /\ AttrTypes r = []
      /\ Matches r = [] /\ Words r = [] /\ Warning r = []
  | None =>
      (Status r = SEARCHD_OK /\ Warning r = [])
      \/ Status r = SEARCHD_WARNING
  end.

(** Two clients with the same query configuration and recorded error;
    connection, connection-error flag, warning and queue may differ. *)
Definition sameConfig (sc sc' : Client) : Prop :=
  opts sc' = opts sc /\ err sc' = err sc /\ weights sc' = weights sc
  /\ filters sc' = filters sc /\ indexWeights sc' = indexWeights sc
  /\ fieldWeights sc' = fieldWeights sc /\ overrides sc' = overrides sc.

(** ** Open and Close (sphinx.go)

    These and the functions that follow are further functions of
    [sphinx.go] and [sphinxql.go], embedded like the ones above. *)

Definition SEARCHD_COMMAND_UPDATE : Z := 2.
Definition SEARCHD_COMMAND_KEYWORDS : Z := 3.
Definition SEARCHD_COMMAND_PERSIST : Z := 4.
Definition SEARCHD_COMMAND_FLUSHATTRS : Z := 7.

Definition VER_COMMAND_UPDATE : Z := 0x102.
Definition VER_COMMAND_KEYWORDS : Z := 0x100.
Definition VER_COMMAND_FLUSHATTRS : Z := 0x100.

(** Runtime faults beyond the ones above, and the outcome of the
    functions that can raise them. *)
Inductive fault : Type :=
| runtime (why : panic)
| nil_pointer_dereference
| index_out_of_range.

Inductive run (A : Type) : Type :=
| Done (a : A)
| Fault (why : fault).
Arguments Done {A} a.
Arguments Fault {A} why.

Definition Open (net : Network) (sc : Client)
  : Client * run (option error) :=
  let '(sc, cerr) := connect net sc in
  match cerr with
  | Some e => (sc, Done (Some (errors_New (str "Open > " ++ error_msg e))))
  | None =>
      match conn sc with
      | None => (sc, Fault nil_pointer_dereference)
      | Some c =>
          let req := writeInt16ToBytes [] SEARCHD_COMMAND_PERSIST in
          let req := writeInt16ToBytes req 0 in
          let req := writeInt32ToBytes req 4 in
          let req := writeInt32ToBytes req 1 in
          let '(c, werr) := conn_Write c req in
          let sc := set_conn sc (Some c) in
          match werr with
          | Some e =>
              (set_connerror sc true,
               Done (Some (errors_New (str "Open > sc.conn.Write() "
                                       ++ error_msg e))))
          | None => (sc, Done None)
          end
      end
  end.

(** [closeErr] is what [sc.conn.Close()] answers. *)
Definition Close (closeErr : option error) (sc : Client)
  : Client * option error :=
  match conn sc with
  | None => (sc, Some (Errorf "Close > Not connected!"))
  | Some _ =>
      match closeErr with
      | Some e => (sc, Some e)
      | None => (set_conn sc None, None)
      end
  end.

(** The dial connect makes on a client without a connection: the Unix
    socket if one is configured, else TCP if the port is positive, else
    none. *)
Definition dialOf (net : Network) (sc : Client) : option (Conn + error) :=
  let o := opts sc in
  if negb (gostring_eqb (Socket o) []) then
    Some (DialTimeout net (str "unix") (Socket o))
  else if 0 <? Port o then
    Some (DialTimeout net (str "tcp")
            (Host o ++ str ":" ++ FormatInt (Port o)))
  else None.

(** The server greets with a protocol version of at least 1 and the
    connection accepts the deadline and the write. *)
Definition greets (c : Conn) : Prop :=
  deadlineErr c = None /\ 4 <= len (inbox c)
  /\ 1 <= Uint32 (firstn 4 (inbox c)) /\ writeErr c = None.

(** The Persist command as Open writes it: command 4, version 0, body
    length 4, body 1. *)
Definition persistFrame : list byte :=
  [x00; x04; x00; x00; x00; x00; x00; x04; x00; x00; x00; x01].

(** A network on which every dial yields a fresh connection that will
    deliver [incoming]. *)
Definition sample_dial (incoming : list byte) : Network :=
  mkNetwork (fun _ _ => inl (mkConn incoming [] None None)).

(** The eight bytes in front of a reply body: status, version, length. *)
Definition replyHeader (status ver size : Z) : list byte :=
  writeInt32ToBytes (writeInt16ToBytes (writeInt16ToBytes [] status) ver) size.

(** The eight bytes in front of a request body: command, version, length. *)
Definition requestHeader (command version size : Z) : list byte :=
  writeInt32ToBytes
    (writeInt16ToBytes (writeInt16ToBytes [] command) version) size.

(** The connection [c] after [sent] was written to it and everything up to
    [rest] was read from it. *)
Definition served (c : Conn) (sent rest : list byte) : Conn :=
  mkConn rest (outbox c ++ sent) (deadlineErr c) (writeErr c).


(** * Properties *)

(** ** Bytes and big-endian words *)

Lemma u8_byte_of (z : Z) : u8 (byte_of z) = z mod 256.
Proof.
  unfold u8, byte_of.
  assert (Hr : 0 <= z mod 256 < 256) by (apply Z.mod_pos_bound; lia).
  destruct (Byte.of_N (Z.to_N (z mod 256))) as [b|] eqn:E.
  - apply Byte.to_of_N in E. rewrite E. lia.
  - apply Byte.of_N_None_iff in E. lia.
Qed.

Lemma len_app {A : Type} (l1 l2 : list A) : len (l1 ++ l2) = len l1 + len l2.
Proof. unfold len. rewrite length_app. lia. Qed.

Lemma len_nonneg {A : Type} (l : list A) : 0 <= len l.
Proof. unfold len. lia. Qed.

(** The bits that one byte of a big-endian word contributes. *)
Lemma byte_lane (v k m : Z) :
  0 <= k -> 0 <= m ->
  Z.testbit (Z.shiftl (u8 (byte_of (Z.shiftr v k))) k) m
  = (k <=? m) && (m <? k + 8) && Z.testbit v m.
Proof.
  intros Hk Hm. rewrite u8_byte_of.
  change 256 with (2 ^ 8).
  rewrite Z.shiftl_spec by assumption.
  destruct (Z.leb_spec k m) as [Hle|Hlt]; cbn [andb].
  - rewrite Z.testbit_mod_pow2 by lia.
    rewrite Z.shiftr_spec by lia.
    replace (m - k + k) with m by lia.
    destruct (Z.ltb_spec (m - k) 8), (Z.ltb_spec m (k + 8));
      try lia; reflexivity.
  - apply Z.testbit_neg_r. lia.
Qed.

Lemma byte_lane0 (v m : Z) :
  0 <= m ->
  Z.testbit (u8 (byte_of v)) m = (m <? 8) && Z.testbit v m.
Proof.
  intros Hm. rewrite u8_byte_of. change 256 with (2 ^ 8).
  apply Z.testbit_mod_pow2. lia.
Qed.

Lemma testbit_above (v w m : Z) :
  0 <= v < 2 ^ w -> 0 <= w -> w <= m -> Z.testbit v m = false.
Proof.
  intros Hv Hw Hm.
  rewrite <- (Z.mod_small v (2 ^ w)) by assumption.
  rewrite Z.testbit_mod_pow2 by lia.
  destruct (Z.ltb_spec m w); [lia | reflexivity].
Qed.

Lemma Uint32_PutUint32 (v : Z) :
  0 <= v < 2 ^ 32 -> Uint32 (PutUint32 v) = v.
Proof.
  intros Hv. unfold Uint32, PutUint32, at_. cbn [nth].
  apply Z.bits_inj'. intros m Hm.
  rewrite !Z.lor_spec, !byte_lane, byte_lane0 by lia.
  destruct (Z.ltb_spec m 32) as [Hlt|Hge].
  - destruct (Z.testbit v m); [|now rewrite !andb_false_r].
    rewrite !andb_true_r.
    destruct (Z.ltb_spec m 8), (Z.leb_spec 8 m), (Z.ltb_spec m (8 + 8)),
      (Z.leb_spec 16 m), (Z.ltb_spec m (16 + 8)), (Z.leb_spec 24 m),
      (Z.ltb_spec m (24 + 8)); try lia; reflexivity.
  - rewrite (testbit_above v 32 m) by lia. now rewrite !andb_false_r.
Qed.

Lemma PutUint32_len (v : Z) : len (PutUint32 v) = 4.
Proof. reflexivity. Qed.

(** ** Slice expressions *)

Lemma slice_framed {A : Type} (pre s post x : list A) (lo hi : Z) :
  slice s lo hi = Some x ->
  slice (pre ++ s ++ post) (len pre + lo) (len pre + hi) = Some x.
Proof.
  unfold slice.
  destruct (Z.leb_spec 0 lo) as [H0|]; [|discriminate].
  destruct (Z.leb_spec lo hi) as [H1|]; [|discriminate].
  destruct (Z.leb_spec hi (len s)) as [H2|]; [|discriminate].
  cbn [andb]. intros [= <-].
  pose proof (len_nonneg pre) as Hp.
  destruct (Z.leb_spec 0 (len pre + lo)); [|lia].
  destruct (Z.leb_spec (len pre + lo) (len pre + hi)); [|lia].
  rewrite !len_app.
  destruct (Z.leb_spec (len pre + hi) (len pre + (len s + len post)));
    [|pose proof (len_nonneg post); lia].
  cbn [andb]. f_equal.
  replace (len pre + hi - (len pre + lo)) with (hi - lo) by lia.
  replace (Z.to_nat (len pre + lo))
    with (List.length pre + Z.to_nat lo)%nat by (unfold len; lia).
  rewrite skipn_app.
  rewrite (skipn_all2 pre) by lia. rewrite app_nil_l.
  replace (List.length pre + Z.to_nat lo - List.length pre)%nat
    with (Z.to_nat lo) by lia.
  rewrite skipn_app, firstn_app.
  rewrite length_skipn.
  replace (Z.to_nat (hi - lo) - (List.length s - Z.to_nat lo))%nat
    with 0%nat by (unfold len in H2; lia).
  cbn [firstn]. now rewrite app_nil_r.
Qed.

Lemma slice_whole {A : Type} (x : list A) : slice x 0 (len x) = Some x.
Proof.
  unfold slice. pose proof (len_nonneg x).
  destruct (Z.leb_spec 0 0); [|lia].
  destruct (Z.leb_spec 0 (len x)); [|lia].
  destruct (Z.leb_spec (len x) (len x)); [|lia].
  cbn [andb]. f_equal. rewrite Z.sub_0_r. unfold len.
  rewrite Nat2Z.id. cbn [Z.to_nat skipn]. apply firstn_all.
Qed.

(** Reading [x] where it lies in the stream. *)
Lemma slice_at {A : Type} (pre x post : list A) (n : Z) :
  n = len x -> slice (pre ++ x ++ post) (len pre) (len pre + n) = Some x.
Proof.
  intros ->. pose proof (slice_framed pre x post x 0 (len x) (slice_whole x)) as H.
  now rewrite Z.add_0_r in H.
Qed.

(** ** Locality of the decoder *)

Lemma framed_ret {A : Type} (a : A) : framed (ret a).
Proof. intros pre post bp a' bp' [= <- <-]. reflexivity. Qed.

Lemma framed_returnErr {A : Type} (e : error) : framed (@returnErr A e).
Proof. intros pre post bp a' bp' H. discriminate H. Qed.

Lemma framed_bind {A B : Type} (m : Parser A) (f : A -> Parser B) :
  framed m -> (forall a, framed (f a)) -> framed (bind m f).
Proof.
  intros Hm Hf pre post bp b bp'. unfold bind.
  destruct (m bp) as [a bp1| |] eqn:E; try discriminate.
  intros H. rewrite (Hm pre post bp a bp1 E). now apply Hf.
Qed.

Lemma framed_readN {A : Type} (n : Z) (conv : list byte -> A) :
  framed (readN n conv).
Proof.
  intros pre post bp a bp'. unfold readN, shiftBP. cbn [stream p].
  destruct (slice (stream bp) (p bp) (p bp + n)) as [b|] eqn:E;
    [|discriminate].
  intros [= <- <-]. cbn [stream p].
  rewrite <- Z.add_assoc.
  rewrite (slice_framed pre (stream bp) post b _ _ E).
  reflexivity.
Qed.

Lemma framed_repeatM {A : Type} (n : nat) (m : Parser A) :
  framed m -> framed (repeatM n m).
Proof.
  intros Hm. induction n as [|n IH]; cbn [repeatM].
  - apply framed_ret.
  - apply framed_bind; [assumption|]. intros x.
    apply framed_bind; [assumption|]. intros xs. apply framed_ret.
Qed.

Lemma framed_mapM {A B : Type} (f : A -> Parser B) (l : list A) :
  (forall a, framed (f a)) -> framed (mapM f l).
Proof.
  intros Hf. induction l as [|a l IH]; cbn [mapM].
  - apply framed_ret.
  - apply framed_bind; [apply Hf|]. intros x.
    apply framed_bind; [assumption|]. intros xs. apply framed_ret.
Qed.

Ltac framed_step :=
  first
    [ apply framed_ret
    | apply framed_returnErr
    | apply framed_readN
    | apply framed_repeatM
    | apply framed_mapM; intros
    | apply framed_bind; [|intros]
    | match goal with
      | |- framed (if ?c then _ else _) => destruct c
      | |- framed (match ?x with _ => _ end) => destruct x
      end ].

Lemma framed_String : framed bp_String.
Proof. unfold bp_String, bp_Int32. repeat framed_step. Qed.

Lemma framed_decodeAttr (attrType : Z) : framed (decodeAttr attrType).
Proof.
  unfold decodeAttr, bp_String, bp_Float32, bp_Int32, bp_Uint32, bp_Uint64.
  repeat framed_step.
Qed.

Lemma framed_decodeMatch (id64 : Z) (tys : list Z) :
  framed (decodeMatch id64 tys).
Proof.
  unfold decodeMatch, bp_Int32, bp_Uint32, bp_Uint64.
  repeat framed_step; apply framed_decodeAttr.
Qed.

Lemma framed_decodeWord : framed decodeWord.
Proof.
  unfold decodeWord, bp_Int32.
  repeat framed_step; apply framed_String.
Qed.

Lemma framed_decodeRest (status : Z) (w : gostring) :
  framed (decodeRest status w).
Proof.
  unfold decodeRest, bp_Int32, bp_Uint32.
  repeat first
    [ apply framed_String | apply framed_decodeMatch
    | apply framed_decodeWord | framed_step ].
Qed.

Lemma framed_decodeResult : framed decodeResult.
Proof.
  unfold decodeResult, bp_Int32.
  repeat first [ apply framed_String | apply framed_decodeRest | framed_step ].
Qed.

(** ** Reading what the writers wrote *)

Lemma readN_at {A : Type} (conv : list byte -> A) (pre x post : list byte)
  (n : Z) :
  n = len x ->
  readN n conv (mkBP (pre ++ x ++ post) (len pre))
  = Val (conv x) (mkBP (pre ++ x ++ post) (len pre + n)).
Proof.
  intros Hn. unfold readN. cbn [stream p].
  now rewrite (slice_at pre x post n Hn).
Qed.

Lemma Int32_at (pre post : list byte) (v : Z) :
  isWord32 v ->
  bp_Int32 (mkBP (pre ++ PutUint32 v ++ post) (len pre))
  = Val v (mkBP (pre ++ PutUint32 v ++ post) (len pre + 4)).
Proof.
  intros Hv. unfold bp_Int32.
  rewrite (readN_at Uint32 pre (PutUint32 v) post 4 eq_refl).
  now rewrite Uint32_PutUint32.
Qed.

Lemma String_at (pre post : list byte) (s : gostring) :
  len s < 2 ^ 32 ->
  bp_String (mkBP (pre ++ (PutUint32 (len s) ++ s) ++ post) (len pre))
  = Val s (mkBP (pre ++ (PutUint32 (len s) ++ s) ++ post)
                (len pre + (4 + len s))).
Proof.
  intros Hs. pose proof (len_nonneg s) as H0.
  unfold bp_String, bind.
  rewrite <- (app_assoc (PutUint32 (len s))).
  rewrite Int32_at by (unfold isWord32; lia).
  destruct (Z.ltb_spec 0 (len s)) as [Hpos|Hzero].
  - rewrite (app_assoc pre (PutUint32 (len s))).
    replace (len pre + 4) with (len (pre ++ PutUint32 (len s)))
      by (rewrite len_app; reflexivity).
    rewrite (readN_at (fun b => b) _ s post (len s) eq_refl).
    rewrite len_app, PutUint32_len. f_equal. f_equal. lia.
  - assert (s = []) as ->.
    { destruct s; [reflexivity|]. unfold len in Hzero. cbn in Hzero. lia. }
    unfold ret. f_equal; f_equal; unfold len; cbn; lia.
Qed.

Lemma encodes_failed (status : Z) (message : gostring) :
  status = SEARCHD_ERROR \/ status = SEARCHD_RETRY ->
  len message < 2 ^ 32 ->
  encodes (writeLenStrToBytes (writeInt32ToBytes [] status) message,
           failedResult status message).
Proof.
  intros Hst Hlen. pose proof (len_nonneg message) as H0.
  unfold encodes, decodeResult, writeLenStrToBytes, writeInt32ToBytes.
  cbn [fst snd]. rewrite app_nil_l.
  rewrite (Z.mod_small (len message)) by lia.
  assert (Hw : isWord32 status).
  { unfold isWord32, SEARCHD_ERROR, SEARCHD_RETRY in *. lia. }
  rewrite (Z.mod_small status) by exact Hw.
  unfold bind at 1.
  rewrite <- app_assoc.
  pose proof (Int32_at [] (PutUint32 (len message) ++ message) status Hw) as E.
  rewrite !app_nil_l in E. change (len []) with 0 in E.
  rewrite E. clear E.
  assert (Hok : (status =? SEARCHD_OK) = false).
  { unfold SEARCHD_OK, SEARCHD_ERROR, SEARCHD_RETRY in *.
    destruct Hst as [-> | ->]; reflexivity. }
  assert (Hwarn : (status =? SEARCHD_WARNING) = false).
  { unfold SEARCHD_WARNING, SEARCHD_ERROR, SEARCHD_RETRY in *.
    destruct Hst as [-> | ->]; reflexivity. }
  rewrite Hok. cbn [negb]. unfold bind.
  pose proof (String_at (PutUint32 status) [] message Hlen) as E.
  rewrite !app_nil_r in E.
  change (0 + 4) with (len (PutUint32 status)).
  rewrite E. rewrite Hwarn. unfold ret. f_equal. f_equal.
  rewrite !len_app, !PutUint32_len. lia.
Qed.

(** ** A batch is decoded block by block *)

Lemma decodeResults_blocks (blocks : list (list byte * Result)) :
  Forall encodes blocks ->
  forall pre post acc,
    decodeResults (List.length blocks) acc
      (mkBP (pre ++ List.concat (map fst blocks) ++ post) (len pre))
    = Val (acc ++ map snd blocks)
          (mkBP (pre ++ List.concat (map fst blocks) ++ post)
                (len pre + len (List.concat (map fst blocks)))).
Proof.
  induction 1 as [|[b r] blocks Hb Hbs IH]; intros pre post acc.
  - cbn. rewrite app_nil_r. unfold ret, len. cbn. now rewrite Z.add_0_r.
  - cbn [List.length decodeResults map fst snd List.concat]. unfold bind.
    pose proof (framed_decodeResult pre (List.concat (map fst blocks) ++ post)
                  (mkBP b 0) r (mkBP b (len b)) Hb) as H.
    unfold shiftBP in H. cbn [stream p] in H. rewrite Z.add_0_r in H.
    rewrite <- app_assoc. rewrite H.
    specialize (IH (pre ++ b) post (acc ++ [r])).
    rewrite <- !app_assoc in IH. rewrite len_app in IH. rewrite IH.
    rewrite len_app, Z.add_assoc. reflexivity.
Qed.

(** ** MULTI64 values *)




(** ** RunQueries over a reply *)

Lemma RunQueries_decodes (net : Network) (sc sc' : Client)
  (response : list byte) :
  reqs sc <> [] ->
  doRequest net SEARCHD_COMMAND_SEARCH VER_COMMAND_SEARCH
    (RunQueries_allReqs sc) sc = (sc', (response, None)) ->
  RunQueries net sc
  = match decodeResults (List.length (reqs sc)) [] (mkBP response 0) with
    | Val results _ => (set_reqs sc' [], Returned (results, None))
    | Ret e => (sc', Returned ([], Some e))
    | Panic w => (sc', Panicked w)
    end.
Proof.
  intros Hne Hdo. unfold RunQueries.
  destruct (Z.eqb_spec (len (reqs sc)) 0) as [Hz|_].
  - destruct (reqs sc); [congruence|]. unfold len in Hz. cbn in Hz. lia.
  - rewrite Hdo. unfold len. now rewrite Nat2Z.id.
Qed.

(** C7. In a batch, a query whose status is ERROR or RETRY yields a result
    that holds only that status and an error carrying the daemon's message:
    nothing but the status and the message is consumed for it, and the
    results before and after it in the same reply are decoded as they would
    be on their own. *)
Theorem C7_daemon_error_is_scoped_to_its_query
  (net : Network) (sc sc' : Client) (before after : list (list byte * Result))
  (status : Z) (message : gostring) :
  status = SEARCHD_ERROR \/ status = SEARCHD_RETRY ->
  len message < 2 ^ 32 ->
  Forall encodes before ->
  Forall encodes after ->
  List.length (reqs sc) = (List.length before + 1 + List.length after)%nat ->
  doRequest net SEARCHD_COMMAND_SEARCH VER_COMMAND_SEARCH
    (RunQueries_allReqs sc) sc
  = (sc', (List.concat (map fst before)
           ++ writeLenStrToBytes (writeInt32ToBytes [] status) message
           ++ List.concat (map fst after), None)) ->
  RunQueries net sc
  = (set_reqs sc' [],
     Returned (map snd before
               ++ mkResult [] [] [] [] 0 0 0 [] []
                    (Some (errors_New message)) status
               :: map snd after, None)).
Proof.
  intros Hst Hlen Hb Ha Hn Hdo.
  assert (Hne : reqs sc <> []).
  { intros E. rewrite E in Hn. cbn in Hn. lia. }
  rewrite (RunQueries_decodes net sc sc' _ Hne Hdo).
  set (errBlock := writeLenStrToBytes (writeInt32ToBytes [] status) message).
  set (blocks := before ++ (errBlock, failedResult status message) :: after).
  assert (Hall : Forall encodes blocks).
  { apply Forall_app. split; [assumption|].
    constructor; [now apply encodes_failed | assumption]. }
  pose proof (decodeResults_blocks blocks Hall [] [] []) as E.
  assert (Hcat : List.concat (map fst blocks)
                 = List.concat (map fst before) ++ errBlock
                   ++ List.concat (map fst after)).
  { unfold blocks. rewrite map_app, concat_app. reflexivity. }
  assert (Hlenb : List.length blocks = List.length (reqs sc)).
  { unfold blocks. rewrite length_app. cbn [List.length]. lia. }
  rewrite app_nil_l, app_nil_r, Hcat, Hlenb in E.
  change (len []) with 0 in E. rewrite E.
  unfold blocks. rewrite map_app. reflexivity.
Qed.

Lemma C7_witness :
  exists sc',
    RunQueries sample_net
      (sample_client
         (sample_reply
            (List.concat (map fst [(sample_okBlock, sample_okResult)])
             ++ writeLenStrToBytes (writeInt32ToBytes [] SEARCHD_ERROR)
                  (str "unknown local index")
             ++ List.concat (map fst [(sample_okBlock, sample_okResult)])))
         [[x01]; [x02]; [x03]])
    = (set_reqs sc' [],
       Returned (map snd [(sample_okBlock, sample_okResult)]
                 ++ mkResult [] [] [] [] 0 0 0 [] []
                      (Some (errors_New (str "unknown local index")))
                      SEARCHD_ERROR
                 :: map snd [(sample_okBlock, sample_okResult)], None)).
Proof.
  eexists.
  apply (C7_daemon_error_is_scoped_to_its_query sample_net _ _
           [(sample_okBlock, sample_okResult)]
           [(sample_okBlock, sample_okResult)]
           SEARCHD_ERROR (str "unknown local index")).
  - left. reflexivity.
  - vm_compute. reflexivity.
  - repeat constructor.
  - repeat constructor.
  - reflexivity.
  - vm_compute. reflexivity.
Defined.

(** ** What a successful request leaves on the wire *)

(** Case analysis on every test the goal still branches on. *)
Ltac split_matches :=
  repeat match goal with
         | |- context [if ?b then _ else _] => destruct b
         | |- context [match ?x with _ => _ end] => destruct x
         end.

Lemma fold_left_app_concat (l : list (list byte)) (init : list byte) :
  fold_left (fun acc r => acc ++ r) l init = init ++ List.concat l.
Proof.
  revert init. induction l as [|r l IH]; intros init; cbn.
  - now rewrite app_nil_r.
  - rewrite IH. now rewrite app_assoc.
Qed.

Lemma RunQueries_allReqs_eq (sc : Client) :
  RunQueries_allReqs sc
  = writeInt32ToBytes [] 0 ++ writeInt32ToBytes [] (len (reqs sc))
    ++ List.concat (reqs sc).
Proof.
  unfold RunQueries_allReqs. rewrite fold_left_app_concat.
  unfold writeInt32ToBytes. now rewrite !app_nil_l, <- app_assoc.
Qed.

Lemma doRequest_sent (net : Network) (command version : Z) (req : list byte)
  (sc sc' : Client) (res : list byte) :
  doRequest net command version req sc = (sc', (res, None)) ->
  exists sc0 c0 c',
    connect net sc = (sc0, None) /\ conn sc0 = Some c0 /\ conn sc' = Some c'
    /\ outbox c'
       = outbox c0
         ++ writeInt32ToBytes
              (writeInt16ToBytes (writeInt16ToBytes [] command) version)
              (len req)
         ++ req.
Proof.
  unfold doRequest.
  destruct (connect net sc) as [sc0 [e|]]; [intros [=]|].
  destruct (conn sc0) as [c0|] eqn:Ec; [|intros [=]].
  unfold conn_Write.
  destruct (writeErr c0) as [e|]; [intros [=]|].
  unfold ReadFull. cbn [inbox outbox deadlineErr writeErr].
  intros H. exists sc0, c0.
  repeat match type of H with
         | context [if ?b then _ else _] => destruct b
         | context [match ?x with _ => _ end] => destruct x
         end;
    try discriminate H;
    injection H as <- _; eexists; (split; [reflexivity|]);
    (split; [exact Ec|]); (split; [reflexivity|]); reflexivity.
Qed.

Lemma doRequest_outbox (net : Network) (command version : Z)
  (req : list byte) (sc : Client) (c : Conn) :
  conn sc = Some c ->
  writeErr c = None ->
  exists c',
    conn (fst (doRequest net command version req sc)) = Some c'
    /\ outbox c'
       = outbox c
         ++ writeInt32ToBytes
              (writeInt16ToBytes (writeInt16ToBytes [] command) version)
              (len req)
         ++ req.
Proof.
  intros Hc Hw. unfold doRequest, connect. rewrite Hc, Hc.
  unfold conn_Write. rewrite Hw.
  unfold ReadFull, recovered.
  cbn [inbox outbox deadlineErr writeErr].
  split_matches; cbn [fst conn set_conn set_connerror set_warning];
    eexists; split; reflexivity.
Qed.

(** C3. With an empty pending queue RunQueries returns the "no queries"
    error and leaves the client, its connection included, untouched,
    whatever the network.  With [N > 0] pending requests, a successful call
    has written, after the connection was established, one search envelope
    whose body is int32 0, int32 [N] and the requests in insertion order,
    and it leaves the queue empty.  Over a connection that is already open
    and accepts the write, that envelope is what the call appends to the
    bytes sent, whatever happens afterwards. *)
Theorem C3_RunQueries_frames_and_drains_the_queue :
  (forall (net : Network) (sc : Client),
     reqs sc = [] ->
     RunQueries net sc
     = (sc, Returned ([], Some (Errorf
          "RunQueries > No queries defined, issue AddQuery() first."))))
  /\
  (forall (net : Network) (sc sc' : Client) (results : list Result),
     reqs sc <> [] ->
     RunQueries net sc = (sc', Returned (results, None)) ->
     reqs sc' = []
     /\ exists sc0 c0 c',
          connect net sc = (sc0, None)
          /\ conn sc0 = Some c0
          /\ conn sc' = Some c'
          /\ let body := writeInt32ToBytes [] 0
                         ++ writeInt32ToBytes [] (len (reqs sc))
                         ++ List.concat (reqs sc) in
             outbox c'
             = outbox c0
               ++ writeInt16ToBytes [] SEARCHD_COMMAND_SEARCH
               ++ writeInt16ToBytes [] VER_COMMAND_SEARCH
               ++ writeInt32ToBytes [] (len body)
               ++ body)
  /\
  (forall (net : Network) (sc : Client) (c : Conn),
     reqs sc <> [] ->
     conn sc = Some c ->
     writeErr c = None ->
     exists c',
       conn (fst (RunQueries net sc)) = Some c'
       /\ let body := writeInt32ToBytes [] 0
                      ++ writeInt32ToBytes [] (len (reqs sc))
                      ++ List.concat (reqs sc) in
          outbox c'
          = outbox c
            ++ writeInt16ToBytes [] SEARCHD_COMMAND_SEARCH
            ++ writeInt16ToBytes [] VER_COMMAND_SEARCH
            ++ writeInt32ToBytes [] (len body)
            ++ body).
Proof.
  split; [|split].
  - intros net sc Hq. unfold RunQueries. rewrite Hq. reflexivity.
  - intros net sc sc' results Hne Hrun. unfold RunQueries in Hrun.
    destruct (Z.eqb_spec (len (reqs sc)) 0) as [Hz|_].
    { destruct (reqs sc); [congruence|]. unfold len in Hz. cbn in Hz. lia. }
    destruct (doRequest net SEARCHD_COMMAND_SEARCH VER_COMMAND_SEARCH
                (RunQueries_allReqs sc) sc) as [sc1 [response [e|]]] eqn:Hdo;
      [discriminate Hrun|].
    destruct (decodeResults _ _ _) as [rs bp| |]; try discriminate Hrun.
    injection Hrun as <- _. split; [reflexivity|].
    destruct (doRequest_sent _ _ _ _ _ _ _ Hdo)
      as (sc0 & c0 & c' & Hcon & Hc0 & Hc' & Hout).
    exists sc0, c0, c'. repeat split; try assumption.
    cbv zeta. rewrite Hout, RunQueries_allReqs_eq.
    unfold writeInt32ToBytes, writeInt16ToBytes.
    now rewrite !app_nil_l, <- !app_assoc.
  - intros net sc c Hne Hc Hw.
    destruct (doRequest_outbox net SEARCHD_COMMAND_SEARCH VER_COMMAND_SEARCH
                (RunQueries_allReqs sc) sc c Hc Hw) as (c' & Hc' & Hout).
    exists c'. split.
    + unfold RunQueries.
      destruct (Z.eqb_spec (len (reqs sc)) 0) as [Hz|_].
      { destruct (reqs sc); [congruence|]. unfold len in Hz. cbn in Hz. lia. }
      destruct (doRequest net SEARCHD_COMMAND_SEARCH VER_COMMAND_SEARCH
                  (RunQueries_allReqs sc) sc) as [sc1 [response [e|]]];
        cbn [fst] in *; [exact Hc'|].
      destruct (decodeResults _ _ _); exact Hc'.
    + cbv zeta. rewrite Hout, RunQueries_allReqs_eq.
      unfold writeInt32ToBytes, writeInt16ToBytes.
      now rewrite !app_nil_l, <- !app_assoc.
Qed.

Lemma C3_witness :
  reqs (fst (RunQueries sample_net sample_queued)) = []
  /\ exists sc0 c0 c',
       connect sample_net sample_queued = (sc0, None)
       /\ conn sc0 = Some c0
       /\ conn (fst (RunQueries sample_net sample_queued)) = Some c'
       /\ outbox c'
          = outbox c0
            ++ writeInt16ToBytes [] SEARCHD_COMMAND_SEARCH
            ++ writeInt16ToBytes [] VER_COMMAND_SEARCH
            ++ writeInt32ToBytes []
                 (len (writeInt32ToBytes [] 0
                       ++ writeInt32ToBytes [] (len (reqs sample_queued))
                       ++ List.concat (reqs sample_queued)))
            ++ writeInt32ToBytes [] 0
            ++ writeInt32ToBytes [] (len (reqs sample_queued))
            ++ List.concat (reqs sample_queued).
Proof.
  apply (proj1 (proj2 C3_RunQueries_frames_and_drains_the_queue) sample_net
           sample_queued _ [sample_okResult]).
  - vm_compute. discriminate.
  - vm_compute. reflexivity.
Defined.

(** ** Setters that refuse their arguments *)

(** C5. SetLimits with a negative offset records a configuration error and
    changes nothing else: the options, Offset, Limit, MaxMatches and Cutoff
    among them, stay as they were.  SetFilterRange with [umin > umax]
    records a configuration error and leaves the filter list as it was. *)
Theorem C5_rejected_setters_leave_state :
  (forall (sc : Client) (offset limit maxMatches cutoff : Z),
     offset < 0 ->
     let sc' := SetLimits sc offset limit maxMatches cutoff in
     GetLastError sc'
     = Some (Errorf_d "SetLimits > offset must not be negative: " offset)
     /\ Offset (opts sc') = Offset (opts sc)
     /\ Limit (opts sc') = Limit (opts sc)
     /\ MaxMatches (opts sc') = MaxMatches (opts sc)
     /\ Cutoff (opts sc') = Cutoff (opts sc)
     /\ opts sc' = opts sc
     /\ filters sc' = filters sc)
  /\
  (forall (sc : Client) (attr : gostring) (umin umax : Z) (exclude : bool),
     umin > umax ->
     let sc' := SetFilterRange sc attr umin umax exclude in
     (exists e, GetLastError sc' = Some e)
     /\ filters sc' = filters sc
     /\ opts sc' = opts sc).
Proof.
  split.
  - intros sc offset limit maxMatches cutoff Hoff. unfold SetLimits.
    destruct (Z.ltb_spec offset 0) as [_|Hge]; [|lia].
    cbv zeta. repeat split; reflexivity.
  - intros sc attr umin umax exclude Hrange.
    unfold SetFilterRange. cbv zeta.
    destruct (gostring_eqb attr []).
    + split; [eexists; reflexivity | split; reflexivity].
    + destruct (Z.ltb_spec umax umin) as [_|Hle]; [|lia].
      split; [eexists; reflexivity | split; reflexivity].
Qed.

Lemma C5_witness :
  (GetLastError (SetLimits (NewClient []) (-1) 20 1000 0)
   = Some (Errorf_d "SetLimits > offset must not be negative: " (-1))
   /\ Offset (opts (SetLimits (NewClient []) (-1) 20 1000 0))
      = Offset (opts (NewClient []))
   /\ Limit (opts (SetLimits (NewClient []) (-1) 20 1000 0))
      = Limit (opts (NewClient []))
   /\ MaxMatches (opts (SetLimits (NewClient []) (-1) 20 1000 0))
      = MaxMatches (opts (NewClient []))
   /\ Cutoff (opts (SetLimits (NewClient []) (-1) 20 1000 0))
      = Cutoff (opts (NewClient []))
   /\ opts (SetLimits (NewClient []) (-1) 20 1000 0) = opts (NewClient [])
   /\ filters (SetLimits (NewClient []) (-1) 20 1000 0)
      = filters (NewClient []))
  /\
  ((exists e,
      GetLastError (SetFilterRange (NewClient []) (str "group_id") 9 3 false)
      = Some e)
   /\ filters (SetFilterRange (NewClient []) (str "group_id") 9 3 false)
      = filters (NewClient [])
   /\ opts (SetFilterRange (NewClient []) (str "group_id") 9 3 false)
      = opts (NewClient [])).
Proof.
  split.
  - apply (proj1 C5_rejected_setters_leave_state (NewClient []) (-1) 20 1000 0).
    lia.
  - apply (proj2 C5_rejected_setters_leave_state (NewClient [])
             (str "group_id") 9 3 false).
    lia.
Defined.

(** ** Defects *)

(** C2. A reply whose declared match count exceeds the bytes present makes
    RunQueries panic with a slice bounds fault: no error is returned and the
    pending queue is left as it was. *)
Theorem C2_short_reply_panics :
  let sc := sample_client (sample_reply truncated_response) [[x01]] in
  snd (RunQueries sample_net sc) = Panicked slice_bounds_out_of_range
  /\ reqs (fst (RunQueries sample_net sc)) = [[x01]]
  /\ decodeResults 1 [] (mkBP truncated_response 0)
     = Panic slice_bounds_out_of_range.
Proof.
  cbv zeta. repeat split; vm_compute; reflexivity.
Qed.


(** C9. On a client fresh from NewClient the override map is nil, so
    SetOverride never stores an override there: with a non-empty name and
    any of the types SPH_ATTR_INTEGER to SPH_ATTR_STRING or SPH_ATTR_MULTI
    it panics on the map assignment, with SPH_ATTR_MULTI64 it records
    "invalid attrType"; whatever the arguments, it panics or returns a
    client with a recorded error and no override. *)
Theorem C9_SetOverride_on_fresh_client :
  Forall (fun ty =>
            SetOverride (NewClient []) (str "group_id") ty [(1, I_int 5)]
            = Panicked assignment_to_entry_in_nil_map)
         [SPH_ATTR_INTEGER; SPH_ATTR_TIMESTAMP; SPH_ATTR_ORDINAL;
          SPH_ATTR_BOOL; SPH_ATTR_FLOAT; SPH_ATTR_BIGINT; SPH_ATTR_STRING;
          SPH_ATTR_MULTI]
  /\ SetOverride (NewClient []) (str "group_id") SPH_ATTR_MULTI64
       [(1, I_int 5)]
     = Returned (set_err (NewClient [])
                   (Errorf_d "SetOverride > invalid attrType: "
                      SPH_ATTR_MULTI64))
  /\ (forall (o : list Options) (attrName : gostring) (attrType : Z)
             (values : list (Z * iface)),
        match SetOverride (NewClient o) attrName attrType values with
        | Panicked w => w = assignment_to_entry_in_nil_map
        | Returned sc' =>
            overrides sc' = None /\ exists e, GetLastError sc' = Some e
        end).
Proof.
  split; [repeat constructor|]. split; [reflexivity|].
  intros o attrName attrType values.
  assert (Hnil : overrides (NewClient o) = None) by (destruct o; reflexivity).
  unfold SetOverride. rewrite Hnil.
  destruct (gostring_eqb attrName []).
  - split; [exact Hnil | eexists; reflexivity].
  - destruct (_ && _).
    + split; [exact Hnil | eexists; reflexivity].
    + reflexivity.
Qed.

(** C10. AllowEmpty and EmitZones are both encoded as bit 256 of the flags
    word: a call with only AllowEmpty set and a call with only EmitZones
    set build the same request and are indistinguishable; and
    LoadFilesScattered does not reach the flags at all. *)
Theorem C10_AllowEmpty_and_EmitZones_share_a_bit
  (net : Network) (sc : Client) (docs : list gostring)
  (index words : gostring) (o : ExcerptsOpts.t) :
  BuildExcerpts_iFlags (withAllowEmptyEmitZones o true false)
  = BuildExcerpts_iFlags (withAllowEmptyEmitZones o false true)
  /\ BuildExcerpts_req docs index words (withAllowEmptyEmitZones o true false)
     = BuildExcerpts_req docs index words (withAllowEmptyEmitZones o false true)
  /\ BuildExcerpts net sc docs index words (withAllowEmptyEmitZones o true false)
     = BuildExcerpts net sc docs index words
         (withAllowEmptyEmitZones o false true).
Proof.
  assert (Hf : BuildExcerpts_iFlags (withAllowEmptyEmitZones o true false)
               = BuildExcerpts_iFlags (withAllowEmptyEmitZones o false true))
    by reflexivity.
  assert (Hr : BuildExcerpts_req docs index words
                 (withAllowEmptyEmitZones o true false)
               = BuildExcerpts_req docs index words
                   (withAllowEmptyEmitZones o false true)).
  { unfold BuildExcerpts_req. rewrite Hf. reflexivity. }
  split; [exact Hf|]. split; [exact Hr|].
  unfold BuildExcerpts. rewrite Hr. reflexivity.
Qed.

(** ** The recorded configuration error and the fallible calls *)








(** ** Literals of the SphinxQL bridge *)
















(** * Further properties *)

(** ** Round trips of the wire primitives *)

(** Settle every comparison of the goal that linear arithmetic decides. *)
Ltac decide_cmp :=
  repeat match goal with
         | |- context [?a <=? ?b] =>
             first [ replace (a <=? b) with true
                       by (symmetry; apply Z.leb_le; lia)
                   | replace (a <=? b) with false
                       by (symmetry; apply Z.leb_gt; lia) ]
         | |- context [?a <? ?b] =>
             first [ replace (a <? b) with true
                       by (symmetry; apply Z.ltb_lt; lia)
                   | replace (a <? b) with false
                       by (symmetry; apply Z.ltb_ge; lia) ]
         end.

Lemma Uint16_PutUint16_mod (v : Z) : Uint16 (PutUint16 v) = v mod 2 ^ 16.
Proof.
  unfold Uint16, PutUint16, at_. cbn [nth].
  apply Z.bits_inj'. intros m Hm.
  rewrite Z.testbit_mod_pow2 by lia.
  rewrite !Z.lor_spec, !byte_lane, byte_lane0 by lia.
  destruct (Z.testbit v m); [|now rewrite !andb_false_r].
  rewrite !andb_true_r.
  assert (Hc : m < 8 \/ 8 <= m < 16 \/ 16 <= m) by lia.
  destruct Hc as [H|[H|H]]; decide_cmp; reflexivity.
Qed.

Lemma Uint32_PutUint32_mod (v : Z) : Uint32 (PutUint32 v) = v mod 2 ^ 32.
Proof.
  unfold Uint32, PutUint32, at_. cbn [nth].
  apply Z.bits_inj'. intros m Hm.
  rewrite Z.testbit_mod_pow2 by lia.
  rewrite !Z.lor_spec, !byte_lane, byte_lane0 by lia.
  destruct (Z.testbit v m); [|now rewrite !andb_false_r].
  rewrite !andb_true_r.
  assert (Hc : m < 8 \/ 8 <= m < 16 \/ 16 <= m < 24 \/ 24 <= m < 32
               \/ 32 <= m) by lia.
  destruct Hc as [H|[H|[H|[H|H]]]]; decide_cmp; reflexivity.
Qed.

Lemma Uint64_PutUint64_mod (v : Z) : Uint64 (PutUint64 v) = v mod 2 ^ 64.
Proof.
  unfold Uint64, PutUint64, at_. cbn [nth].
  apply Z.bits_inj'. intros m Hm.
  rewrite Z.testbit_mod_pow2 by lia.
  rewrite !Z.lor_spec, !byte_lane, byte_lane0 by lia.
  destruct (Z.testbit v m); [|now rewrite !andb_false_r].
  rewrite !andb_true_r.
  assert (Hc : m < 8 \/ 8 <= m < 16 \/ 16 <= m < 24 \/ 24 <= m < 32
               \/ 32 <= m < 40 \/ 40 <= m < 48 \/ 48 <= m < 56
               \/ 56 <= m < 64 \/ 64 <= m) by lia.
  destruct Hc as [H|[H|[H|[H|[H|[H|[H|[H|H]]]]]]]]; decide_cmp; reflexivity.
Qed.

Lemma PutUint64_len (v : Z) : len (PutUint64 v) = 8.
Proof. reflexivity. Qed.

(** X1. What the fixed-width writers append is read back by the matching
    reader from the place where it was appended, modulo the width: an int
    through writeInt32ToBytes and Int32 or Uint32 comes back as
    [i mod 2^32] (so a negative int comes back large), a uint64 through
    writeInt64ToBytes and Uint64 as [v mod 2^64], a float32 bit pattern
    through writeFloat32ToBytes and Float32 unchanged with a nil error; the
    cursor moves by the width. *)
Theorem X1_fixed_width_round_trips (bs post : list byte) (v : Z) :
  bp_Int32 (mkBP (writeInt32ToBytes bs v ++ post) (len bs))
  = Val (v mod 2 ^ 32) (mkBP (writeInt32ToBytes bs v ++ post) (len bs + 4))
  /\ bp_Uint32 (mkBP (writeInt32ToBytes bs v ++ post) (len bs))
     = Val (v mod 2 ^ 32) (mkBP (writeInt32ToBytes bs v ++ post) (len bs + 4))
  /\ bp_Uint64 (mkBP (writeInt64ToBytes bs v ++ post) (len bs))
     = Val (v mod 2 ^ 64) (mkBP (writeInt64ToBytes bs v ++ post) (len bs + 8))
  /\ bp_Float32 (mkBP (writeFloat32ToBytes bs v ++ post) (len bs))
     = Val (v mod 2 ^ 32, None)
           (mkBP (writeFloat32ToBytes bs v ++ post) (len bs + 4)).
Proof.
  unfold bp_Int32, bp_Uint32, bp_Uint64, bp_Float32, writeInt32ToBytes,
    writeInt64ToBytes, writeFloat32ToBytes.
  rewrite <- !app_assoc.
  repeat split.
  - rewrite (readN_at Uint32 bs (PutUint32 (v mod 2 ^ 32)) post 4 eq_refl).
    rewrite Uint32_PutUint32_mod, Z.mod_mod by lia. reflexivity.
  - rewrite (readN_at Uint32 bs (PutUint32 (v mod 2 ^ 32)) post 4 eq_refl).
    rewrite Uint32_PutUint32_mod, Z.mod_mod by lia. reflexivity.
  - rewrite (readN_at Uint64 bs (PutUint64 v) post 8 eq_refl).
    rewrite Uint64_PutUint64_mod. reflexivity.
  - rewrite (readN_at (fun b => (Uint32 b, None)) bs (PutUint32 v) post 4
               eq_refl).
    rewrite Uint32_PutUint32_mod. reflexivity.
Qed.

Lemma slice_prefix {A : Type} (pre x post : list A) (n : Z) :
  0 <= n <= len x ->
  slice (pre ++ x ++ post) (len pre) (len pre + n)
  = Some (firstn (Z.to_nat n) x).
Proof.
  intros Hn.
  rewrite <- (firstn_skipn (Z.to_nat n) x) at 1.
  rewrite <- app_assoc.
  apply slice_at. unfold len in *. rewrite length_firstn. lia.
Qed.

Lemma String_written (bs post : list byte) (s : gostring) :
  bp_String (mkBP (writeLenStrToBytes bs s ++ post) (len bs))
  = Val (firstn (Z.to_nat (len s mod 2 ^ 32)) s)
        (mkBP (writeLenStrToBytes bs s ++ post)
              (len bs + 4 + len s mod 2 ^ 32)).
Proof.
  pose proof (len_nonneg s) as H0.
  assert (Hm : 0 <= len s mod 2 ^ 32 < 2 ^ 32) by (apply Z.mod_pos_bound; lia).
  assert (Hle : len s mod 2 ^ 32 <= len s) by (apply Z.mod_le; lia).
  unfold bp_String, bind, writeLenStrToBytes.
  rewrite <- !app_assoc.
  rewrite Int32_at by exact Hm.
  destruct (Z.ltb_spec 0 (len s mod 2 ^ 32)) as [Hpos|Hzero].
  - unfold readN. cbn [stream p].
    pose proof (slice_prefix (bs ++ PutUint32 (len s mod 2 ^ 32)) s post
                  (len s mod 2 ^ 32) (conj (proj1 Hm) Hle)) as E.
    rewrite <- !app_assoc, len_app, PutUint32_len in E.
    rewrite E. reflexivity.
  - replace (len s mod 2 ^ 32) with 0 by lia.
    unfold ret. cbn [Z.to_nat firstn]. now rewrite Z.add_0_r.
Qed.

(** X2. A string appended by writeLenStrToBytes is read back by String from
    the place where it was appended: the length travels as
    [uint32(len(s))], so String returns the first [len(s) mod 2^32] bytes
    and moves the cursor past the length word and those bytes; a string
    shorter than 2^32 bytes comes back whole, an empty one takes the four
    length bytes only. *)
Theorem X2_string_round_trip (bs post : list byte) (s : gostring) :
  bp_String (mkBP (writeLenStrToBytes bs s ++ post) (len bs))
  = Val (firstn (Z.to_nat (len s mod 2 ^ 32)) s)
        (mkBP (writeLenStrToBytes bs s ++ post)
              (len bs + 4 + len s mod 2 ^ 32))
  /\ (len s < 2 ^ 32 ->
      bp_String (mkBP (writeLenStrToBytes bs s ++ post) (len bs))
      = Val s (mkBP (writeLenStrToBytes bs s ++ post) (len bs + 4 + len s))).
Proof.
  split; [apply String_written|].
  intros Hs. pose proof (len_nonneg s) as H0.
  rewrite String_written, Z.mod_small by lia.
  unfold len at 1. rewrite Nat2Z.id, firstn_all. reflexivity.
Qed.

Lemma X2_witness :
  bp_String (mkBP (writeLenStrToBytes [x01] (str "test") ++ [x02])
               (len [x01]))
  = Val (str "test")
        (mkBP (writeLenStrToBytes [x01] (str "test") ++ [x02])
              (len [x01] + 4 + len (str "test"))).
Proof.
  apply (proj2 (X2_string_round_trip [x01] [x02] (str "test"))).
  vm_compute. reflexivity.
Defined.

(** ** The cursor stays inside the reply *)

Lemma advances_ret {A : Type} (a : A) : advances (ret a).
Proof.
  intros bp a' bp' Hin [= <- <-]. repeat split; try apply Hin. lia.
Qed.

Lemma advances_returnErr {A : Type} (e : error) : advances (@returnErr A e).
Proof. intros bp a bp' _ H. discriminate H. Qed.

Lemma advances_bind {A B : Type} (m : Parser A) (f : A -> Parser B) :
  advances m -> (forall a, advances (f a)) -> advances (bind m f).
Proof.
  intros Hm Hf bp b bp' Hin. unfold bind.
  destruct (m bp) as [a bp1| |] eqn:E; try discriminate.
  intros H.
  destruct (Hm bp a bp1 Hin E) as (Hs1 & Hp1 & Hin1).
  destruct (Hf a bp1 b bp' Hin1 H) as (Hs2 & Hp2 & Hin2).
  repeat split; try apply Hin2; [congruence | lia].
Qed.

Lemma advances_readN {A : Type} (n : Z) (conv : list byte -> A) :
  advances (readN n conv).
Proof.
  intros bp a bp' Hin. unfold readN, slice.
  destruct (Z.leb_spec 0 (p bp)); [|discriminate].
  destruct (Z.leb_spec (p bp) (p bp + n)); [|discriminate].
  destruct (Z.leb_spec (p bp + n) (len (stream bp))); [|discriminate].
  cbn [andb]. intros [= <- <-]. unfold inside. cbn [stream p].
  repeat split; lia.
Qed.

Lemma advances_repeatM {A : Type} (n : nat) (m : Parser A) :
  advances m -> advances (repeatM n m).
Proof.
  intros Hm. induction n as [|n IH]; cbn [repeatM].
  - apply advances_ret.
  - apply advances_bind; [assumption|]. intros x.
    apply advances_bind; [assumption|]. intros xs. apply advances_ret.
Qed.

Lemma advances_mapM {A B : Type} (f : A -> Parser B) (l : list A) :
  (forall a, advances (f a)) -> advances (mapM f l).
Proof.
  intros Hf. induction l as [|a l IH]; cbn [mapM].
  - apply advances_ret.
  - apply advances_bind; [apply Hf|]. intros x.
    apply advances_bind; [assumption|]. intros xs. apply advances_ret.
Qed.

Ltac advances_step :=
  first
    [ apply advances_ret
    | apply advances_returnErr
    | apply advances_readN
    | apply advances_repeatM
    | apply advances_mapM; intros
    | apply advances_bind; [|intros]
    | match goal with
      | |- advances (if ?c then _ else _) => destruct c
      | |- advances (match ?x with _ => _ end) => destruct x
      end ].

Lemma advances_String : advances bp_String.
Proof. unfold bp_String, bp_Int32. repeat advances_step. Qed.

Lemma advances_decodeAttr (attrType : Z) : advances (decodeAttr attrType).
Proof.
  unfold decodeAttr, bp_String, bp_Float32, bp_Int32, bp_Uint32, bp_Uint64.
  repeat advances_step.
Qed.

Lemma advances_decodeResult : advances decodeResult.
Proof.
  unfold decodeResult, decodeRest, decodeMatch, decodeWord, bp_Int32,
    bp_Uint32, bp_Uint64.
  repeat first
    [ apply advances_String | apply advances_decodeAttr | advances_step ].
Qed.

Lemma advances_decodeResults (n : nat) :
  forall acc, advances (decodeResults n acc).
Proof.
  induction n as [|n IH]; intros acc; cbn [decodeResults].
  - apply advances_ret.
  - apply advances_bind; [apply advances_decodeResult|]. intros r. apply IH.
Qed.

(** X3. The readers never look outside the reply: a fixed-width read panics
    exactly when fewer bytes than its width remain after the cursor, and
    otherwise converts exactly the bytes under the cursor; and when the
    decoding of a batch succeeds from a cursor inside the reply, the reply
    is unchanged and the cursor has moved forward and is still inside. *)
Theorem X3_cursor_stays_inside :
  (forall (A : Type) (n : Z) (conv : list byte -> A) (bp : byteParser),
     0 <= n ->
     (readN n conv bp = Panic slice_bounds_out_of_range
      <-> ~ (0 <= p bp /\ p bp + n <= len (stream bp)))
     /\ (0 <= p bp /\ p bp + n <= len (stream bp) ->
         readN n conv bp
         = Val (conv (firstn (Z.to_nat n)
                        (skipn (Z.to_nat (p bp)) (stream bp))))
               (mkBP (stream bp) (p bp + n))))
  /\
  (forall (n : nat) (acc results : list Result) (bp bp' : byteParser),
     inside bp ->
     decodeResults n acc bp = Val results bp' ->
     stream bp' = stream bp /\ p bp <= p bp' /\ inside bp').
Proof.
  split.
  - intros A n conv bp Hn. unfold readN, slice.
    destruct (Z.leb_spec 0 (p bp)); cbn [andb].
    + destruct (Z.leb_spec (p bp) (p bp + n)); [|lia]. cbn [andb].
      destruct (Z.leb_spec (p bp + n) (len (stream bp))).
      * split; [split; [discriminate | lia]|].
        intros _. replace (p bp + n - p bp) with n by lia. reflexivity.
      * split; [split; [lia | reflexivity]|]. lia.
    + split; [split; [lia | reflexivity]|]. lia.
  - intros n acc results bp bp' Hin H.
    exact (advances_decodeResults n acc bp results bp' Hin H).
Qed.

Lemma X3_witness :
  readN 4 Uint32 (mkBP sample_okBlock 32)
  = Val (Uint32 (firstn (Z.to_nat 4)
                   (skipn (Z.to_nat (p (mkBP sample_okBlock 32)))
                      (stream (mkBP sample_okBlock 32)))))
        (mkBP (stream (mkBP sample_okBlock 32))
              (p (mkBP sample_okBlock 32) + 4))
  /\ stream (mkBP sample_okBlock 36) = stream (mkBP sample_okBlock 0)
  /\ p (mkBP sample_okBlock 0) <= p (mkBP sample_okBlock 36)
  /\ inside (mkBP sample_okBlock 36).
Proof.
  split.
  - apply (proj2 (proj1 X3_cursor_stays_inside Z 4 Uint32
                    (mkBP sample_okBlock 32) ltac:(lia))).
    vm_compute. split; discriminate.
  - apply (proj2 X3_cursor_stays_inside 1%nat [] [sample_okResult]
             (mkBP sample_okBlock 0) (mkBP sample_okBlock 36)).
    + unfold inside. vm_compute. split; discriminate.
    + vm_compute. reflexivity.
Defined.

(** ** What decoded results look like *)

Lemma yields_repeatM {A : Type} (m : Parser A) (P : A -> Prop) (n : nat) :
  yields m P ->
  yields (repeatM n m) (fun l => List.length l = n /\ Forall P l).
Proof.
  intros Hm. induction n as [|n IH]; intros bp l bp'; cbn [repeatM].
  - intros [= <- _]. split; [reflexivity | constructor].
  - unfold bind.
    destruct (m bp) as [x bp1| |] eqn:E1; try discriminate.
    destruct (repeatM n m bp1) as [xs bp2| |] eqn:E2; try discriminate.
    intros [= <- _]. destruct (IH bp1 xs bp2 E2) as [Hl Hf].
    split; [cbn [List.length]; congruence|].
    constructor; [exact (Hm bp x bp1 E1) | exact Hf].
Qed.

Lemma yields_mapM {A B : Type} (f : A -> Parser B) (R : A -> B -> Prop)
  (l : list A) :
  (forall a, yields (f a) (R a)) -> yields (mapM f l) (Forall2 R l).
Proof.
  intros Hf. induction l as [|a l IH]; intros bp r bp'; cbn [mapM].
  - intros [= <- _]. constructor.
  - unfold bind.
    destruct (f a bp) as [x bp1| |] eqn:E1; try discriminate.
    destruct (mapM f l bp1) as [xs bp2| |] eqn:E2; try discriminate.
    intros [= <- _].
    constructor; [exact (Hf a bp x bp1 E1) | exact (IH bp1 xs bp2 E2)].
Qed.

(** Take a successful run of a sequence of binds apart, step by step. *)
Ltac run_binds H :=
  unfold bind in H;
  repeat match type of H with
         | match ?m ?bp with _ => _ end = Val _ _ =>
             let E := fresh "E" in
             destruct (m bp) eqn:E; try discriminate H
         end.

Lemma yields_decodeAttr (ty : Z) : yields (decodeAttr ty) (attrValueOk ty).
Proof.
  intros bp v bp'. unfold decodeAttr.
  destruct (Z.eqb_spec ty SPH_ATTR_BIGINT) as [->|N1].
  { intros H. run_binds H. injection H as <- _. reflexivity. }
  destruct (Z.eqb_spec ty SPH_ATTR_FLOAT) as [->|N2].
  { intros H. run_binds H.
    destruct (snd a); [discriminate H|]. injection H as <- _. reflexivity. }
  destruct (Z.eqb_spec ty SPH_ATTR_STRING) as [->|N3].
  { intros H. run_binds H. injection H as <- _. reflexivity. }
  destruct (Z.eqb_spec ty SPH_ATTR_MULTI) as [->|N4].
  { intros H. run_binds H. injection H as <- _. reflexivity. }
  destruct (Z.eqb_spec ty SPH_ATTR_MULTI64) as [->|N5].
  { intros H. run_binds H. injection H as <- _. reflexivity. }
  intros H. run_binds H. injection H as <- _. cbn. auto.
Qed.

Lemma yields_decodeMatch (id64 : Z) (tys : list Z) :
  yields (decodeMatch id64 tys)
    (fun m => Forall2 attrValueOk tys (AttrValues m)).
Proof.
  intros bp m bp'. unfold decodeMatch, bind.
  destruct ((if id64 =? 1 then bp_Uint64 else bp_Uint32) bp)
    as [docId bp1| |]; try discriminate.
  destruct (bp_Int32 bp1) as [w bp2| |]; try discriminate.
  destruct (mapM decodeAttr tys bp2) as [vals bp3| |] eqn:E;
    try discriminate.
  intros [= <- _]. cbn [AttrValues].
  exact (yields_mapM decodeAttr attrValueOk tys yields_decodeAttr _ _ _ E).
Qed.

Lemma yields_decodeRest (status : Z) (w : gostring) :
  yields (decodeRest status w)
    (fun r => aligned r /\ Error r = None /\ Status r = status
              /\ Warning r = w).
Proof.
  intros bp r bp'. unfold decodeRest, bind.
  destruct (bp_Int32 bp) as [nfields b1| |]; try discriminate.
  destruct (repeatM _ bp_String b1) as [fields b2| |]; try discriminate.
  destruct (bp_Int32 b2) as [nattrs b3| |]; try discriminate.
  destruct (repeatM _ _ b3) as [attrs b4| |]; try discriminate.
  destruct (bp_Int32 b4) as [count b5| |]; try discriminate.
  destruct (bp_Int32 b5) as [id64 b6| |]; try discriminate.
  destruct (repeatM _ (decodeMatch id64 (map snd attrs)) b6)
    as [matches b7| |] eqn:Em; try discriminate.
  destruct (bp_Int32 b7) as [total b8| |]; try discriminate.
  destruct (bp_Int32 b8) as [totalFound b9| |]; try discriminate.
  destruct (bp_Uint32 b9) as [msecs b10| |]; try discriminate.
  destruct (bp_Int32 b10) as [nwords b11| |]; try discriminate.
  destruct (repeatM _ decodeWord b11) as [words b12| |]; try discriminate.
  intros [= <- _]. unfold aligned.
  cbn [AttrNames AttrTypes Matches Error Status Warning].
  repeat split.
  - now rewrite !length_map.
  - exact (proj2 (yields_repeatM _ _ _ (yields_decodeMatch id64 _) _ _ _ Em)).
Qed.

Lemma yields_decodeResult :
  yields decodeResult (fun r => aligned r /\ statusConsistent r).
Proof.
  intros bp r bp'. unfold decodeResult, bind.
  destruct (bp_Int32 bp) as [status b1| |]; try discriminate.
  destruct (Z.eqb_spec status SEARCHD_OK) as [->|Hok]; cbn [negb].
  - intros H. destruct (yields_decodeRest _ _ _ _ _ H) as (Ha & He & Hs & Hw).
    split; [exact Ha|]. unfold statusConsistent. rewrite He. left. now split.
  - destruct (bp_String b1) as [message b2| |]; try discriminate.
    destruct (Z.eqb_spec status SEARCHD_WARNING) as [->|Hwarn].
    + intros H.
      destruct (yields_decodeRest _ _ _ _ _ H) as (Ha & He & Hs & Hw).
      split; [exact Ha|]. unfold statusConsistent. rewrite He. now right.
    + intros [= <- _]. split.
      * split; [reflexivity | constructor].
      * unfold statusConsistent, failedResult. cbn. repeat split; assumption.
Qed.

Lemma decodeResults_yields (P : Result -> Prop) (n : nat) :
  yields decodeResult P ->
  forall acc bp results bp',
    decodeResults n acc bp = Val results bp' ->
    exists rs, results = acc ++ rs /\ List.length rs = n /\ Forall P rs.
Proof.
  intros HP. induction n as [|n IH]; intros acc bp results bp';
    cbn [decodeResults].
  - intros [= <- _]. exists []. rewrite app_nil_r. repeat split. constructor.
  - unfold bind. destruct (decodeResult bp) as [r b1| |] eqn:E;
      try discriminate.
    intros H. destruct (IH _ _ _ _ H) as (rs & -> & Hl & Hf).
    exists (r :: rs). rewrite <- app_assoc. repeat split.
    + cbn [List.length]. congruence.
    + constructor; [exact (HP _ _ _ E) | exact Hf].
Qed.

Lemma RunQueries_success_inv (net : Network) (sc sc' : Client)
  (results : list Result) :
  RunQueries net sc = (sc', Returned (results, None)) ->
  exists sc1 response bp',
    doRequest net SEARCHD_COMMAND_SEARCH VER_COMMAND_SEARCH
      (RunQueries_allReqs sc) sc = (sc1, (response, None))
    /\ decodeResults (List.length (reqs sc)) [] (mkBP response 0)
       = Val results bp'
    /\ sc' = set_reqs sc1 [].
Proof.
  unfold RunQueries.
  destruct (len (reqs sc) =? 0); [discriminate|].
  destruct (doRequest _ _ _ _ _) as [sc1 [response [e|]]]; [discriminate|].
  unfold len. rewrite Nat2Z.id.
  destruct (decodeResults _ _ _) as [rs bp'| |] eqn:E; try discriminate.
  intros [= <- <-]. exists sc1, response, bp'. repeat split. exact E.
Qed.

(** X4. When RunQueries succeeds it returns exactly one result per queued
    request, and in every result the attribute names, the attribute types
    and the values of every match line up: equally many names and types,
    and for each match one value per type whose variant is the one the type
    calls for (uint64 for BIGINT, float32 for FLOAT, string for STRING, a
    list for MULTI and MULTI64, uint32 otherwise). *)
Theorem X4_results_are_aligned (net : Network) (sc sc' : Client)
  (results : list Result) :
  RunQueries net sc = (sc', Returned (results, None)) ->
  List.length results = List.length (reqs sc)
  /\ Forall aligned results.
Proof.
  intros H.
  destruct (RunQueries_success_inv _ _ _ _ H) as (sc1 & resp & bp' & _ & Hd & _).
  destruct (decodeResults_yields _ _ yields_decodeResult _ _ _ _ Hd)
    as (rs & -> & Hl & Hf).
  cbn [List.app]. split; [exact Hl|].
  eapply Forall_impl; [|exact Hf]. intros r [Ha _]. exact Ha.
Qed.

Lemma X4_witness :
  List.length [sample_okResult] = List.length (reqs sample_queued)
  /\ Forall aligned [sample_okResult].
Proof.
  apply (X4_results_are_aligned sample_net sample_queued
           (fst (RunQueries sample_net sample_queued))).
  vm_compute. reflexivity.
Defined.

(** X5. In every result of a successful RunQueries, status, error and
    warning agree: the result carries an error exactly when the daemon's
    status for that query is neither OK nor WARNING, and then its fields,
    attributes, matches, words and warning are empty; without an error the
    status is OK with an empty warning, or WARNING. *)
Theorem X5_status_and_error_agree (net : Network) (sc sc' : Client)
  (results : list Result) :
  RunQueries net sc = (sc', Returned (results, None)) ->
  Forall statusConsistent results.
Proof.
  intros H.
  destruct (RunQueries_success_inv _ _ _ _ H) as (sc1 & resp & bp' & _ & Hd & _).
  destruct (decodeResults_yields _ _ yields_decodeResult _ _ _ _ Hd)
    as (rs & -> & Hl & Hf).
  cbn [List.app].
  eapply Forall_impl; [|exact Hf]. intros r [_ Hs]. exact Hs.
Qed.

Lemma X5_witness : Forall statusConsistent [sample_okResult].
Proof.
  apply (X5_status_and_error_agree sample_net sample_queued
           (fst (RunQueries sample_net sample_queued))).
  vm_compute. reflexivity.
Defined.

(** ** What the network calls leave alone *)

Lemma connect_keeps (net : Network) (sc : Client) :
  sameConfig sc (fst (connect net sc))
  /\ reqs (fst (connect net sc)) = reqs sc
  /\ warning (fst (connect net sc)) = warning sc.
Proof.
  destruct sc as [o c w er ce ws fs rs iw fw ov].
  unfold sameConfig, connect, ReadFull, conn_Write, set_conn, set_connerror.
  cbn [opts conn warning err connerror weights filters reqs indexWeights
       fieldWeights overrides].
  split_matches; cbn; repeat split; reflexivity.
Qed.

Lemma doRequest_keeps (net : Network) (command version : Z)
  (req : list byte) (sc : Client) :
  sameConfig sc (fst (doRequest net command version req sc))
  /\ reqs (fst (doRequest net command version req sc)) = reqs sc.
Proof.
  unfold doRequest.
  destruct (connect_keeps net sc) as (Hc & Hr & _).
  destruct (connect net sc) as [sc0 cerr]. cbn [fst] in Hc, Hr.
  destruct sc0 as [o c w er ce ws fs rs iw fw ov].
  destruct sc as [o' c' w' er' ce' ws' fs' rs' iw' fw' ov'].
  unfold sameConfig in *.
  cbn [opts conn warning err connerror weights filters reqs indexWeights
       fieldWeights overrides] in *.
  destruct Hc as (-> & -> & -> & -> & -> & -> & ->). subst rs.
  unfold recovered, ReadFull, conn_Write, set_conn, set_connerror,
    set_warning.
  cbn [opts conn warning err connerror weights filters reqs indexWeights
       fieldWeights overrides].
  split_matches; cbn; repeat split; reflexivity.
Qed.

(** X6. RunQueries never touches the query configuration: options,
    recorded error, weights, filters and overrides are the same after the
    call, whatever its outcome.  The pending queue is emptied on success
    only; after a returned error or a panic it still holds every request. *)
Theorem X6_RunQueries_keeps_configuration (net : Network) (sc : Client) :
  sameConfig sc (fst (RunQueries net sc))
  /\ match snd (RunQueries net sc) with
     | Returned (_, None) => reqs (fst (RunQueries net sc)) = []
     | _ => reqs (fst (RunQueries net sc)) = reqs sc
     end.
Proof.
  unfold RunQueries.
  destruct (len (reqs sc) =? 0).
  { cbn [fst snd]. unfold sameConfig. repeat split; reflexivity. }
  destruct (doRequest_keeps net SEARCHD_COMMAND_SEARCH VER_COMMAND_SEARCH
              (RunQueries_allReqs sc) sc) as [Hc Hr].
  destruct (doRequest _ _ _ _ _) as [sc1 [response [e|]]]; cbn [fst snd] in *.
  { split; assumption. }
  destruct (decodeResults _ _ _); cbn [fst snd]; split; try assumption;
    reflexivity.
Qed.

(** ** The handshake *)


Lemma connect_handshake (net : Network) (sc : Client) (c : Conn) :
  conn sc = None ->
  dialOf net sc = Some (inl c) ->
  (greets c ->
   connect net sc
   = (set_conn (set_connerror sc false)
        (Some (mkConn (skipn 4 (inbox c))
                 (outbox c ++ PutUint32 VER_MAJOR_PROTO)
                 (deadlineErr c) (writeErr c))), None))
  /\ (~ greets c ->
      exists e c',
        snd (connect net sc) = Some e
        /\ conn (fst (connect net sc)) = Some c'
        /\ outbox c' = outbox c).
Proof.
  intros Hc Hd. unfold connect, dialOf in *. rewrite Hc.
  cbn [opts set_connerror] in *.
  assert (Hd' : exists d, d = inl c /\
     (if negb (gostring_eqb (Socket (opts sc)) [])
      then Some (DialTimeout net (str "unix") (Socket (opts sc)))
      else if 0 <? Port (opts sc)
           then Some (DialTimeout net (str "tcp")
                        (Host (opts sc) ++ str ":"
                         ++ FormatInt (Port (opts sc))))
           else None) = Some d).
  { exists (inl c). split; [reflexivity | exact Hd]. }
  destruct Hd' as (d & Hdc & Hd'). rewrite Hd'. subst d.
  unfold greets, ReadFull, conn_Write.
  cbn [conn set_conn set_connerror inbox outbox deadlineErr writeErr].
  destruct (deadlineErr c) as [e|].
  { split; [intros (H & _); discriminate H|].
    intros _. eexists. eexists. cbn [fst snd conn]. repeat split. }
  destruct (Z.leb_spec 4 (len (inbox c))); cbn [negb].
  2:{ split; [intros (_ & H4 & _); lia|].
      intros _. eexists. eexists. cbn [fst snd conn outbox].
      repeat split. }
  change (Z.to_nat 4) with 4%nat.
  destruct (Z.ltb_spec (Uint32 (firstn 4 (inbox c))) 1).
  { split; [intros (_ & _ & Hv & _); lia|].
    intros _. eexists. eexists. cbn [fst snd conn outbox].
    repeat split. }
  destruct (writeErr c) as [e|] eqn:Hw.
  { split; [intros (_ & _ & _ & Hx); discriminate Hx|].
    intros _. eexists. eexists. cbn [fst snd conn outbox].
    repeat split. }
  split; [intros _; reflexivity|].
  intros Hn. exfalso. apply Hn. repeat split; try assumption.
Qed.

Lemma connect_no_conn (net : Network) (sc : Client) :
  conn sc = None ->
  (dialOf net sc = None \/ exists e, dialOf net sc = Some (inr e)) ->
  conn (fst (connect net sc)) = None /\ snd (connect net sc) <> None.
Proof.
  intros Hc Hd. unfold connect, dialOf in *. rewrite Hc.
  cbn [opts set_connerror] in *.
  destruct Hd as [Hd | [e Hd]]; rewrite Hd; cbn [fst snd conn set_connerror];
    (split; [exact Hc | discriminate]).
Qed.

Lemma greets_dec (c : Conn) : greets c \/ ~ greets c.
Proof.
  unfold greets.
  destruct (deadlineErr c); [right; intros (H & _); discriminate H|].
  destruct (Z.le_gt_cases 4 (len (inbox c)));
    [|right; intros (_ & H4 & _); lia].
  destruct (Z.le_gt_cases 1 (Uint32 (firstn 4 (inbox c))));
    [|right; intros (_ & _ & Hv & _); lia].
  destruct (writeErr c); [right; intros (_ & _ & _ & H4); discriminate H4|].
  left. repeat split; assumption.
Qed.

Lemma connect_succeeds_iff (net : Network) (sc : Client) :
  conn sc = None ->
  (snd (connect net sc) = None
   <-> exists c, dialOf net sc = Some (inl c) /\ greets c).
Proof.
  intros Hc. split.
  - intros Hok. destruct (dialOf net sc) as [[c|e]|] eqn:Hd.
    + exists c. split; [reflexivity|].
      destruct (connect_handshake net sc c Hc Hd) as [_ Hbad].
      destruct (greets_dec c) as [Hg|Hn]; [exact Hg|].
      destruct (Hbad Hn) as (e & c' & He & _). congruence.
    + destruct (connect_no_conn net sc Hc) as [_ Hne];
        [right; eexists; exact Hd | contradiction].
    + destruct (connect_no_conn net sc Hc) as [_ Hne];
        [left; exact Hd | contradiction].
  - intros (c & Hd & Hg).
    rewrite (proj1 (connect_handshake net sc c Hc Hd) Hg). reflexivity.
Qed.

(** X7. On a client without a connection, connect succeeds exactly when the
    dial succeeds and the server greets: the deadline is accepted, four
    bytes arrive, they hold a protocol version of at least 1, and the write
    is accepted.  It then has consumed those four bytes, written its own
    version 1 as one big-endian word and cleared the connection-error
    flag. *)
Theorem X7_connect_handshake (net : Network) (sc : Client) :
  conn sc = None ->
  (snd (connect net sc) = None
   <-> exists c, dialOf net sc = Some (inl c) /\ greets c)
  /\ (forall c,
        dialOf net sc = Some (inl c) -> greets c ->
        connect net sc
        = (set_conn (set_connerror sc false)
             (Some (mkConn (skipn 4 (inbox c))
                      (outbox c ++ [x00; x00; x00; x01])
                      (deadlineErr c) (writeErr c))), None)).
Proof.
  intros Hc. split.
  - exact (connect_succeeds_iff net sc Hc).
  - intros c Hd Hg.
    exact (proj1 (connect_handshake net sc c Hc Hd) Hg).
Qed.

(** X8. A handshake that fails after the dial succeeded (refused deadline,
    short read, protocol version below 1, refused write) leaves the dialed
    connection installed in the client with nothing written on it; the next
    connect therefore returns a nil error at once, without dialing and
    without ever sending the client's version.  Only when there is nothing
    to dial or the dial itself fails does the client stay unconnected. *)
Theorem X8_failed_handshake_keeps_the_connection
  (net : Network) (sc : Client) :
  conn sc = None ->
  (forall c,
     dialOf net sc = Some (inl c) -> ~ greets c ->
     exists e c',
       snd (connect net sc) = Some e
       /\ conn (fst (connect net sc)) = Some c'
       /\ outbox c' = outbox c
       /\ connect net (fst (connect net sc)) = (fst (connect net sc), None))
  /\ ((dialOf net sc = None \/ exists e, dialOf net sc = Some (inr e)) ->
      conn (fst (connect net sc)) = None).
Proof.
  intros Hc. split.
  - intros c Hd Hn.
    destruct (proj2 (connect_handshake net sc c Hc Hd) Hn)
      as (e & c' & He & Hc' & Ho).
    exists e, c'. repeat split; try assumption.
    unfold connect at 1. rewrite Hc'. reflexivity.
  - intros Hd. exact (proj1 (connect_no_conn net sc Hc Hd)).
Qed.

Lemma X7_witness :
  connect (sample_dial [x00; x00; x00; x01; x2a]) (NewClient [])
  = (set_conn (set_connerror (NewClient []) false)
       (Some (mkConn (skipn 4 (inbox (mkConn [x00; x00; x00; x01; x2a] []
                                        None None)))
                (outbox (mkConn [x00; x00; x00; x01; x2a] [] None None)
                 ++ [x00; x00; x00; x01])
                (deadlineErr (mkConn [x00; x00; x00; x01; x2a] [] None None))
                (writeErr (mkConn [x00; x00; x00; x01; x2a] [] None None)))),
     None).
Proof.
  apply (proj2 (X7_connect_handshake (sample_dial [x00; x00; x00; x01; x2a])
                  (NewClient []) eq_refl)).
  - reflexivity.
  - unfold greets. repeat split; vm_compute; discriminate.
Defined.

Lemma X8_witness :
  exists e c',
    snd (connect (sample_dial [x00; x00; x00; x00]) (NewClient [])) = Some e
    /\ conn (fst (connect (sample_dial [x00; x00; x00; x00]) (NewClient [])))
       = Some c'
    /\ outbox c' = outbox (mkConn [x00; x00; x00; x00] [] None None)
    /\ connect (sample_dial [x00; x00; x00; x00])
         (fst (connect (sample_dial [x00; x00; x00; x00]) (NewClient [])))
       = (fst (connect (sample_dial [x00; x00; x00; x00]) (NewClient [])),
          None).
Proof.
  apply (proj1 (X8_failed_handshake_keeps_the_connection
                  (sample_dial [x00; x00; x00; x00]) (NewClient []) eq_refl)).
  - reflexivity.
  - intros (_ & _ & Hv & _). revert Hv. vm_compute. intros Hv.
    apply Hv. reflexivity.
Defined.

(** ** Open and Close *)

Lemma connect_ok_conn (net : Network) (sc : Client) :
  snd (connect net sc) = None -> exists c, conn (fst (connect net sc)) = Some c.
Proof.
  destruct (conn sc) as [c|] eqn:Hc.
  - intros _. unfold connect. rewrite Hc. exists c. exact Hc.
  - intros Hok.
    destruct (proj1 (connect_succeeds_iff net sc Hc) Hok)
      as (c & Hd & Hg).
    rewrite (proj1 (connect_handshake net sc c Hc Hd) Hg).
    eexists. reflexivity.
Qed.

(** X9. Open never dereferences a missing connection: it returns, with or
    without an error.  On a connection that is already open and accepts
    the write it appends the twelve bytes of the Persist command (command
    4, version 0, length 4, body 1) and reads nothing, on every call
    again; on a client without a connection whose server greets, the bytes
    written are the client version followed by the Persist command. *)
Theorem X9_Open_sends_persist (net : Network) (sc : Client) :
  (exists r, snd (Open net sc) = Done r)
  /\ (forall c,
        conn sc = Some c -> writeErr c = None ->
        Open net sc
        = (set_conn sc (Some (mkConn (inbox c) (outbox c ++ persistFrame)
                                (deadlineErr c) (writeErr c))),
           Done None))
  /\ (forall c,
        conn sc = None -> dialOf net sc = Some (inl c) -> greets c ->
        Open net sc
        = (set_conn (set_connerror sc false)
             (Some (mkConn (skipn 4 (inbox c))
                      (outbox c ++ [x00; x00; x00; x01] ++ persistFrame)
                      (deadlineErr c) (writeErr c))),
           Done None)).
Proof.
  split; [|split].
  - unfold Open.
    pose proof (connect_ok_conn net sc) as Hok.
    destruct (connect net sc) as [sc1 [e|]]; cbn [fst snd] in *.
    + eexists. reflexivity.
    + destruct (Hok eq_refl) as [c Hc]. rewrite Hc.
      unfold conn_Write. destruct (writeErr c); eexists; reflexivity.
  - intros c Hc Hw. unfold Open, connect. rewrite Hc, Hc.
    unfold conn_Write. rewrite Hw. reflexivity.
  - intros c Hc Hd Hg. unfold Open.
    rewrite (proj1 (connect_handshake net sc c Hc Hd) Hg).
    cbn [conn set_conn]. unfold conn_Write. cbn [writeErr inbox outbox].
    destruct Hg as (_ & _ & _ & Hw). rewrite Hw.
    cbn [deadlineErr]. rewrite <- app_assoc. reflexivity.
Qed.

Lemma X9_witness :
  Open sample_net (sample_client [] [])
  = (set_conn (sample_client [] [])
       (Some (mkConn (inbox (mkConn [] [] None None))
                (outbox (mkConn [] [] None None) ++ persistFrame)
                (deadlineErr (mkConn [] [] None None))
                (writeErr (mkConn [] [] None None)))),
     Done None)
  /\ Open (sample_dial [x00; x00; x00; x01]) (NewClient [])
     = (set_conn (set_connerror (NewClient []) false)
          (Some (mkConn (skipn 4 (inbox (mkConn [x00; x00; x00; x01] []
                                           None None)))
                   (outbox (mkConn [x00; x00; x00; x01] [] None None)
                    ++ [x00; x00; x00; x01] ++ persistFrame)
                   (deadlineErr (mkConn [x00; x00; x00; x01] [] None None))
                   (writeErr (mkConn [x00; x00; x00; x01] [] None None)))),
        Done None).
Proof.
  split.
  - apply (proj1 (proj2 (X9_Open_sends_persist sample_net
                           (sample_client [] [])))); reflexivity.
  - apply (proj2 (proj2 (X9_Open_sends_persist
                           (sample_dial [x00; x00; x00; x01])
                           (NewClient [])))).
    + reflexivity.
    + reflexivity.
    + unfold greets. repeat split; vm_compute; discriminate.
Defined.

(** X10. Close fails with "Not connected" on a client without a
    connection and changes nothing; when the connection refuses to close,
    the error is handed on and the connection stays installed; when it
    closes, the client is unconnected afterwards, so closing a second time
    fails with "Not connected" and the next connect has to dial again. *)
Theorem X10_Close (closeErr closeErr' : option error) (net : Network)
  (sc : Client) :
  (conn sc = None ->
   Close closeErr sc = (sc, Some (Errorf "Close > Not connected!")))
  /\ (forall c e,
        conn sc = Some c -> closeErr = Some e ->
        Close closeErr sc = (sc, Some e))
  /\ (snd (Close closeErr sc) = None ->
      conn (fst (Close closeErr sc)) = None
      /\ Close closeErr' (fst (Close closeErr sc))
         = (fst (Close closeErr sc), Some (Errorf "Close > Not connected!"))
      /\ (snd (connect net (fst (Close closeErr sc))) = None
          <-> exists c, dialOf net sc = Some (inl c) /\ greets c)).
Proof.
  split; [|split].
  - intros Hc. unfold Close. rewrite Hc. reflexivity.
  - intros c e Hc ->. unfold Close. rewrite Hc. reflexivity.
  - unfold Close. destruct (conn sc) as [c|] eqn:Hc; [|discriminate].
    destruct closeErr as [e|]; [discriminate|]. intros _.
    cbn [fst conn set_conn]. repeat split.
    + intros H. apply (connect_succeeds_iff net (set_conn sc None) eq_refl).
      exact H.
    + intros H. apply (connect_succeeds_iff net (set_conn sc None) eq_refl).
      exact H.
Qed.

Lemma X10_witness :
  Close None (NewClient [])
  = (NewClient [], Some (Errorf "Close > Not connected!"))
  /\ Close (Some (Errorf "use of closed network connection"))
       (sample_client [] [])
     = (sample_client [] [],
        Some (Errorf "use of closed network connection"))
  /\ (conn (fst (Close None (sample_client [] []))) = None
      /\ Close None (fst (Close None (sample_client [] [])))
         = (fst (Close None (sample_client [] [])),
            Some (Errorf "Close > Not connected!"))
      /\ (snd (connect sample_net (fst (Close None (sample_client [] []))))
          = None
          <-> exists c,
                dialOf sample_net (sample_client [] []) = Some (inl c)
                /\ greets c)).
Proof.
  split; [|split].
  - apply (proj1 (X10_Close None None sample_net (NewClient []))).
    reflexivity.
  - apply (proj1 (proj2 (X10_Close
                           (Some (Errorf "use of closed network connection"))
                           None sample_net (sample_client [] [])))
             (mkConn [] [] None None)); reflexivity.
  - apply (proj2 (proj2 (X10_Close None None sample_net
                           (sample_client [] [])))).
    reflexivity.
Defined.

(** ** Replies of the daemon *)

Lemma firstn_len_app {A : Type} (x y : list A) (n : Z) :
  n = len x -> firstn (Z.to_nat n) (x ++ y) = x.
Proof.
  intros ->. unfold len. rewrite Nat2Z.id.
  rewrite firstn_app, Nat.sub_diag, firstn_all. cbn [firstn].
  apply app_nil_r.
Qed.

Lemma skipn_len_app {A : Type} (x y : list A) (n : Z) :
  n = len x -> skipn (Z.to_nat n) (x ++ y) = y.
Proof.
  intros ->. unfold len. rewrite Nat2Z.id.
  rewrite skipn_app, Nat.sub_diag, skipn_all. reflexivity.
Qed.

(** doRequest on an open connection that holds a complete reply: all that
    is left to do is the switch on the status. *)
Lemma doRequest_reply (net : Network) (command version : Z) (req : list byte)
  (sc : Client) (c : Conn) (status ver : Z) (body rest : list byte) :
  conn sc = Some c ->
  writeErr c = None ->
  inbox c = replyHeader status ver (len body) ++ body ++ rest ->
  0 < len body < 2 ^ 32 ->
  0 <= status < 2 ^ 16 ->
  doRequest net command version req sc
  = let sc2 :=
      set_conn sc
        (Some (served c (requestHeader command version (len req) ++ req)
                 rest)) in
    if status =? SEARCHD_OK then (sc2, (body, None))
    else if status =? SEARCHD_WARNING then
      match slice body 0 4 with
      | None => recovered sc2
      | Some w4 =>
          let hi := (4 + Uint32 w4) mod 2 ^ 32 in
          match slice body 4 hi with
          | None => recovered sc2
          | Some w =>
              let sc3 := set_warning sc2 w in
              match slice body hi (len body) with
              | None => recovered sc3
              | Some rest' => (sc3, (rest', None))
              end
          end
      end
    else if (status =? SEARCHD_ERROR) || (status =? SEARCHD_RETRY) then
      match slice body 0 4 with
      | None => recovered sc2
      | Some w4 =>
          let hi := (4 + Uint32 w4) mod 2 ^ 32 in
          match slice body 4 hi with
          | None => recovered sc2
          | Some w =>
              (sc2, ([], Some (errors_New
                 (str "doRequest > SEARCHD_ERROR: " ++ w))))
          end
      end
    else
      (sc2, ([], Some (errors_New
         (str "doRequest > unknown status code (status="
          ++ FormatInt status ++ str "), ver: "
          ++ FormatInt (ver mod 2 ^ 16))))).
Proof.
  intros Hc Hw Hin Hsize Hst.
  unfold doRequest, connect. rewrite Hc, Hc.
  unfold conn_Write. rewrite Hw.
  unfold ReadFull. cbn [inbox outbox deadlineErr writeErr]. rewrite Hin.
  assert (Hh : forall tail,
             firstn (Z.to_nat 8) (replyHeader status ver (len body) ++ tail)
             = replyHeader status ver (len body)) by (intros; reflexivity).
  assert (Hs : forall tail,
             skipn (Z.to_nat 8) (replyHeader status ver (len body) ++ tail)
             = tail) by (intros; reflexivity).
  rewrite Hh, Hs.
  assert (Hfull : (8 <=? len (replyHeader status ver (len body)
                               ++ body ++ rest)) = true).
  { apply Z.leb_le. rewrite len_app.
    pose proof (len_nonneg (body ++ rest)).
    change (len (replyHeader status ver (len body))) with 8. lia. }
  rewrite Hfull. cbn [negb].
  change (sub (replyHeader status ver (len body)) 0 2)
    with (PutUint16 (status mod 2 ^ 16)).
  change (sub (replyHeader status ver (len body)) 2 4)
    with (PutUint16 (ver mod 2 ^ 16)).
  change (sub (replyHeader status ver (len body)) 4 8)
    with (PutUint32 (len body mod 2 ^ 32)).
  rewrite !Uint16_PutUint16_mod, Uint32_PutUint32_mod, !Z.mod_mod by lia.
  rewrite (Z.mod_small status), (Z.mod_small (len body)) by lia.
  destruct (Z.leb_spec (len body) 0) as [|_]; [lia|].
  rewrite (firstn_len_app body rest (len body) eq_refl).
  rewrite (skipn_len_app body rest (len body) eq_refl).
  assert (Hfull2 : (len body <=? len (body ++ rest)) = true).
  { apply Z.leb_le. rewrite len_app. pose proof (len_nonneg rest). lia. }
  rewrite Hfull2. cbn [negb]. cbv zeta. unfold served, requestHeader.
  rewrite Hw. reflexivity.
Qed.





(** ** Query, end to end *)

Lemma decodeResults_one (block : list byte) (r : Result) :
  encodes (block, r) ->
  decodeResults 1 [] (mkBP block 0) = Val [r] (mkBP block (len block)).
Proof.
  unfold encodes. cbn [fst snd decodeResults]. intros H.
  unfold bind. rewrite H. reflexivity.
Qed.

(** X12. Query over an open connection that delivers one complete result
    with an OK reply header: whatever was queued before is dropped, the
    body sent is int32 0, int32 1 and the encoding of this one query (with
    "*" for an empty index), and the queue is empty afterwards.  If the
    result carries an error, Query returns "Query > Result error: " with
    its text and no result, and leaves the client's warning alone;
    otherwise it returns the result and stores the result's warning as the
    client's warning. *)
Theorem X12_Query_single_round_trip
  (net : Network) (sc : Client) (c : Conn) (query index comment : gostring)
  (req block rest : list byte) (r : Result) (ver : Z) :
  conn sc = Some c ->
  writeErr c = None ->
  AddQuery_req sc query (if gostring_eqb index [] then str "*" else index)
    comment = EncOk req ->
  encodes (block, r) ->
  0 < len block < 2 ^ 32 ->
  inbox c = replyHeader SEARCHD_OK ver (len block) ++ block ++ rest ->
  let body := writeInt32ToBytes [] 0 ++ writeInt32ToBytes [] 1 ++ req in
  let sc' :=
    set_reqs
      (set_conn sc
         (Some (served c
                  (requestHeader SEARCHD_COMMAND_SEARCH VER_COMMAND_SEARCH
                     (len body) ++ body) rest))) [] in
  Query net sc query index comment
  = match Error r with
    | Some e =>
        (sc', Returned (None, Some (errors_New
                (str "Query > Result error: " ++ error_msg e))))
    | None => (set_warning sc' (Warning r), Returned (Some r, None))
    end.
Proof.
  intros Hc Hw Hreq Henc Hlen Hin body sc'.
  unfold Query, AddQuery.
  change (AddQuery_req (set_reqs sc []) query
            (if gostring_eqb index [] then str "*" else index) comment)
    with (AddQuery_req sc query
            (if gostring_eqb index [] then str "*" else index) comment).
  rewrite Hreq. cbn [reqs set_reqs List.app].
  set (sc1 := set_reqs (set_reqs sc []) [req]).
  assert (Hall : RunQueries_allReqs sc1 = body).
  { rewrite RunQueries_allReqs_eq. unfold sc1, body.
    cbn [reqs set_reqs List.concat]. now rewrite app_nil_r. }
  assert (Hdo :
    doRequest net SEARCHD_COMMAND_SEARCH VER_COMMAND_SEARCH
      (RunQueries_allReqs sc1) sc1
    = (set_conn sc1
         (Some (served c
                  (requestHeader SEARCHD_COMMAND_SEARCH VER_COMMAND_SEARCH
                     (len body) ++ body) rest)), (block, None))).
  { rewrite Hall.
    rewrite (doRequest_reply net SEARCHD_COMMAND_SEARCH VER_COMMAND_SEARCH
               body sc1 c SEARCHD_OK ver block rest Hc Hw Hin Hlen
               ltac:(unfold SEARCHD_OK; lia)).
    reflexivity. }
  rewrite (RunQueries_decodes net sc1 _ block ltac:(discriminate) Hdo).
  change (List.length (reqs sc1)) with 1%nat.
  rewrite (decodeResults_one block r Henc).
  destruct (Error r); reflexivity.
Qed.

Lemma X12_witness :
  Query sample_net (sample_client (sample_reply sample_okBlock) [[x63]])
    (str "test") [] []
  = match Error sample_okResult with
    | Some e =>
        (set_reqs
           (set_conn (sample_client (sample_reply sample_okBlock) [[x63]])
              (Some (served (mkConn (sample_reply sample_okBlock) [] None None)
                       (requestHeader SEARCHD_COMMAND_SEARCH
                          VER_COMMAND_SEARCH
                          (len (writeInt32ToBytes [] 0
                                ++ writeInt32ToBytes [] 1
                                ++ hd [] (reqs sample_queued)))
                        ++ writeInt32ToBytes [] 0 ++ writeInt32ToBytes [] 1
                        ++ hd [] (reqs sample_queued)) []))) [],
         Returned (None, Some (errors_New
            (str "Query > Result error: " ++ error_msg e))))
    | None =>
        (set_warning
           (set_reqs
              (set_conn (sample_client (sample_reply sample_okBlock) [[x63]])
                 (Some (served
                          (mkConn (sample_reply sample_okBlock) [] None None)
                          (requestHeader SEARCHD_COMMAND_SEARCH
                             VER_COMMAND_SEARCH
                             (len (writeInt32ToBytes [] 0
                                   ++ writeInt32ToBytes [] 1
                                   ++ hd [] (reqs sample_queued)))
                           ++ writeInt32ToBytes [] 0
                           ++ writeInt32ToBytes [] 1
                           ++ hd [] (reqs sample_queued)) []))) [])
           (Warning sample_okResult),
         Returned (Some sample_okResult, None))
    end.
Proof.
  apply (X12_Query_single_round_trip sample_net
           (sample_client (sample_reply sample_okBlock) [[x63]])
           (mkConn (sample_reply sample_okBlock) [] None None)
           (str "test") [] [] (hd [] (reqs sample_queued)) sample_okBlock []
           sample_okResult VER_COMMAND_SEARCH).
  - reflexivity.
  - reflexivity.
  - vm_compute. reflexivity.
  - vm_compute. reflexivity.
  - vm_compute. split; reflexivity.
  - vm_compute. reflexivity.
Defined.
